(** * OH_Toolkit: the [oh_parser] command-line front end

    A shallow embedding of [oh_parser/cli.py] together with the library
    operations it calls.  The modules [oh_parser/loader.py] and
    [oh_parser/extract.py] are imported by the CLI but their text is not
    part of the sources at hand; the operations they export are modelled
    from the specification and marked as such. *)

From Stdlib Require Import ZArith String Ascii List Lia.
From stdpp Require Import gmap strings list sorting pretty.

Local Open Scope string_scope.
Local Open Scope list_scope.
Local Open Scope Z_scope.

(** ** Characters the messages need *)

Definition nl : string := String (ascii_of_nat 10) EmptyString.
Definition dquote : string := String (ascii_of_nat 34) EmptyString.

(** ** Documents: JSON value trees *)

Inductive Scalar : Type :=
  | JNull
  | JBool (b : bool)
  | JInt (z : Z)
  | JFloat (literal : string)
  | JStr (s : string).

(** A mapping keeps its items in insertion order, hence the association
    list; a sequence is in index order.  The induction principle is stated
    below, with the nested lists unfolded. *)
#[local] Unset Elimination Schemes.
Inductive Document : Type :=
  | Mapping (items : list (string * Document))
  | Sequence (elems : list Document)
  | Leaf (s : Scalar).
#[local] Set Elimination Schemes.

(** Induction on Documents, with the hypothesis for every child. *)
Definition Document_ind (P : Document -> Prop)
    (Hmapping : forall items, Forall (fun kv => P kv.2) items -> P (Mapping items))
    (Hsequence : forall elems, Forall P elems -> P (Sequence elems))
    (Hleaf : forall s, P (Leaf s)) : forall d, P d :=
  fix go (d : Document) : P d :=
    match d with
    | Mapping items =>
        Hmapping items
          ((fix go_items (items : list (string * Document))
              : Forall (fun kv => P kv.2) items :=
              match items with
              | [] => List.Forall_nil _
              | kv :: rest => List.Forall_cons _ kv rest (go kv.2) (go_items rest)
              end) items)
    | Sequence elems =>
        Hsequence elems
          ((fix go_elems (elems : list Document) : Forall P elems :=
              match elems with
              | [] => List.Forall_nil _
              | v :: rest => List.Forall_cons _ v rest (go v) (go_elems rest)
              end) elems)
    | Leaf s => Hleaf s
    end.

Definition is_container (d : Document) : bool :=
  match d with
  | Mapping _ | Sequence _ => true
  | Leaf _ => false
  end.

(** A Document is empty when it is a container without children; a scalar
    has no addressable parts either. *)
Definition children_count (d : Document) : nat :=
  match d with
  | Mapping items => length items
  | Sequence elems => length elems
  | Leaf _ => 0%nat
  end.

(** ** What a Python call can end in *)

Inductive exn : Type :=
  | InvalidArgument (msg : string)
  | IndexError (msg : string).

Inductive result (A : Type) : Type :=
  | Ok (a : A)
  | Raise (e : exn).
Arguments Ok {A} a.
Arguments Raise {A} e.

(** ** The order Python uses on [str]: lexicographic on code points *)

Definition str_le (s1 s2 : string) : Prop := String.leb s1 s2 = true.

#[global] Instance str_le_dec : RelDecision str_le.
Proof. intros s1 s2. unfold str_le. apply _. Defined.

(** ** The profile store (oh_parser/loader.py) *)

Module Loader.

(** Modelled from the spec: the directory scanned by [load_profiles].
    One entry per file directly in the directory: its name and what the
    JSON parser makes of its content ([None] when the file cannot be
    read or is not well-formed JSON). *)
Record dir_entry : Type := {
  entry_name : string;
  entry_json : option Document
}.

(** Modelled from the spec: the file system as [load_profiles] sees it, a
    directory path mapped to its listing; a path that is not bound does not
    exist.  The store is the "mapping from Subject Identifier to
    Document". *)
Abbreviation FileSystem := (gmap string (list dir_entry)).
Abbreviation Store := (gmap string Document).

(** Modelled from the spec: the "JSON naming convention" of the scan of
    oh_parser/loader.py, a file name that ends in [.json]. *)
Definition JSON_SUFFIX : string := ".json".

Definition ends_with (suffix s : string) : bool :=
  let n := String.length s in
  let k := String.length suffix in
  (k <=? n)%nat && String.eqb (substring (n - k) k s) suffix.

Definition matches_json (name : string) : bool := ends_with JSON_SUFFIX name.

(** Modelled from the spec: the Subject Identifier of a file of
    oh_parser/loader.py, the "file's name (minus extension)". *)
Definition file_stem (name : string) : string :=
  substring 0 (String.length name - String.length JSON_SUFFIX) name.

(** Modelled from the spec: one step of the scan of oh_parser/loader.py.
    A matching file that parses is stored under its stem, a later file
    overwriting an earlier one with the same stem; a matching file that
    does not parse is skipped with a diagnostic. *)
Definition load_entry (acc : Store * list string) (e : dir_entry)
  : Store * list string :=
  if matches_json (entry_name e) then
    match entry_json e with
    | Some doc => (<[file_stem (entry_name e) := doc]> acc.1, acc.2)
    | None => (acc.1, acc.2 ++ ["Skipped " +:+ entry_name e])
    end
  else acc.

(** Modelled from the spec: the non-recursive scan of the directory, in
    the order of its listing. *)
Definition scan (entries : list dir_entry) : Store * list string :=
  foldl load_entry (∅, []) entries.

(** Modelled from the spec: [load_profiles(directory, verbose)] of
    oh_parser/loader.py.  The result is the store and the diagnostics
    written, which are empty unless [verbose]. *)
Definition load_profiles (fs : FileSystem) (directory : string)
    (verbose : bool) : result (Store * list string) :=
  match fs !! directory with
  | None => Ok (∅, if verbose then ["Directory not found: " +:+ directory] else [])
  | Some entries =>
      let '(store, diagnostics) := scan entries in
      Ok (store, if verbose then diagnostics else [])
  end.

(** Modelled from the spec: [list_subjects(store)] of oh_parser/loader.py,
    the sorted listing of the keys. *)
Definition list_subjects (store : Store) : list string :=
  merge_sort str_le (elements (dom store)).

(** Modelled from the spec: [get_profile(store, id)] of
    oh_parser/loader.py, a lookup that answers [None] for a missing key and
    never raises. *)
Definition get_profile (store : Store) (subject_id : string)
  : result (option Document) :=
  Ok (store !! subject_id).

End Loader.

(** ** Paths into a Document *)

Inductive segment : Type :=
  | Key (k : string)
  | Index (i : nat).

#[global] Instance segment_eq_dec : EqDecision segment.
Proof. solve_decision. Defined.

Abbreviation path := (list segment).

(** Modelled from the spec: the Path strings of oh_parser/extract.py,
    "dotted key segments, bracketed indices for sequence elements", as in
    [a.b[0].c]. *)
Definition render_segment (first : bool) (s : segment) : string :=
  match s with
  | Key k => if first then k else "." +:+ k
  | Index i => "[" +:+ pretty i +:+ "]"
  end.

Fixpoint render_from (first : bool) (p : path) : string :=
  match p with
  | [] => EmptyString
  | s :: rest => render_segment first s +:+ render_from false rest
  end.

Definition render_path (p : path) : string := render_from true p.

Fixpoint assoc (k : string) (items : list (string * Document)) : option Document :=
  match items with
  | [] => None
  | (k', v) :: rest => if String.eqb k k' then Some v else assoc k rest
  end.

(** The node a path addresses, if any. *)
Fixpoint resolve (d : Document) (p : path) : option Document :=
  match p with
  | [] => Some d
  | Key k :: rest =>
      match d with
      | Mapping items =>
          match assoc k items with
          | Some v => resolve v rest
          | None => None
          end
      | _ => None
      end
  | Index i :: rest =>
      match d with
      | Sequence elems =>
          match elems !! i with
          | Some v => resolve v rest
          | None => None
          end
      | _ => None
      end
  end.

(** The nesting level of a path is the depth of the container in which its
    last segment is looked up; the root container has depth 0, so a
    top-level key has nesting level 0. *)
Definition nesting_level (p : path) : nat := pred (length p).

(** The data model's invariant: keys of a mapping are unique. *)
Fixpoint unique_keys (d : Document) : Prop :=
  match d with
  | Mapping items =>
      NoDup (fst <$> items) /\
      (fix all (items : list (string * Document)) : Prop :=
         match items with
         | [] => True
         | (_, v) :: rest => unique_keys v /\ all rest
         end) items
  | Sequence elems =>
      (fix all (elems : list Document) : Prop :=
         match elems with
         | [] => True
         | v :: rest => unique_keys v /\ all rest
         end) elems
  | Leaf _ => True
  end.

(** The whole document in traversal order, unbounded: every node below the
    root once, parents before children, mapping items in insertion order,
    sequence elements in index order. *)
Fixpoint preorder (prefix : path) (d : Document) {struct d} : list path :=
  match d with
  | Mapping items =>
      (fix items_from (items : list (string * Document)) : list path :=
         match items with
         | [] => []
         | (k, v) :: rest =>
             ((prefix ++ [Key k]) :: preorder (prefix ++ [Key k]) v)
             ++ items_from rest
         end) items
  | Sequence elems =>
      (fix elems_from (i : nat) (elems : list Document) : list path :=
         match elems with
         | [] => []
         | v :: rest =>
             ((prefix ++ [Index i]) :: preorder (prefix ++ [Index i]) v)
             ++ elems_from (S i) rest
         end) 0%nat elems
  | Leaf _ => []
  end.

(** ** Inspection, path enumeration and the summary (oh_parser/extract.py) *)

Module Extract.

(** Modelled from the spec: the constants of oh_parser/extract.py that the
    specification leaves open: the "small fixed number" of sequence
    elements sampled by the inspector, the length of a value preview, and
    the "statically known set of candidate field paths" of the summary,
    each a column name with the keys leading to the field. *)
Record Constants : Type := {
  SAMPLE_ELEMENTS : nat;
  PREVIEW_CHARS : nat;
  CANDIDATE_FIELDS : list (string * list string)
}.

(** Modelled from the spec: the "value type annotation" of the outline of
    oh_parser/extract.py. *)
Inductive type_tag : Type :=
  | TDict | TList | TNone | TBool | TInt | TFloat | TStr.

Definition type_of (d : Document) : type_tag :=
  match d with
  | Mapping _ => TDict
  | Sequence _ => TList
  | Leaf JNull => TNone
  | Leaf (JBool _) => TBool
  | Leaf (JInt _) => TInt
  | Leaf (JFloat _) => TFloat
  | Leaf (JStr _) => TStr
  end.

(** Modelled from the spec: one line of the outline that [inspect_profile]
    of oh_parser/extract.py prints, before it is laid out as text: a key or
    an index with the type and a preview of its value, a scalar root, the
    marker for a container that the depth limit leaves closed, and the
    marker for the elements of a sequence beyond the sample. *)
Inductive outline_item : Type :=
  | KeyLine (depth : nat) (key : string) (ty : type_tag) (preview : string)
  | ElemLine (depth : nat) (index : nat) (ty : type_tag) (preview : string)
  | ScalarLine (depth : nat) (ty : type_tag) (preview : string)
  | DepthMarker (depth : nat)
  | MoreElements (depth : nat) (remaining : nat).

(** Modelled from the spec: a Summary Row of oh_parser/extract.py, the
    Subject Identifier and one boolean per candidate field. *)
Record SummaryRow : Type := {
  row_subject : string;
  row_fields : list (string * bool)
}.

(** Modelled from the spec: the depth test of the two walkers of
    oh_parser/extract.py, which "stop the recursion at [max_depth]".  The
    root container (depth 0) is always expanded ("at 0, only top-level
    keys are shown with no recursion"; "at least one path for any
    non-empty Document"), and a container at depth [depth + 1] is entered
    only while that depth is below [max_depth]: with [max_depth = 1] the
    walk of [{x: {y: 1}}] gives [x] and not [x.y], with 2 it gives both,
    as in the spec's example. *)
Definition descend (max_depth : Z) (depth : nat) : bool :=
  Z.of_nat (S depth) <? max_depth.

Section WithConstants.
Context (K : Constants).

(** Modelled from the spec: the "short value preview" of
    oh_parser/extract.py, a string cut to [PREVIEW_CHARS]. *)
Definition preview (d : Document) : string :=
  match d with
  | Mapping items => pretty (length items) +:+ " keys"
  | Sequence elems => pretty (length elems) +:+ " items"
  | Leaf JNull => "None"
  | Leaf (JBool b) => if b then "True" else "False"
  | Leaf (JInt z) => pretty z
  | Leaf (JFloat literal) => literal
  | Leaf (JStr s) => substring 0 (PREVIEW_CHARS K) s
  end.

(** Modelled from the spec: the recursive rendering of
    oh_parser/extract.py.  A mapping gives a line per key, a sequence a
    line per sampled element and a marker when it is longer; a container
    value is entered while [descend] allows and is marked otherwise. *)
Fixpoint outline (max_depth : Z) (depth : nat) (d : Document) {struct d}
  : list outline_item :=
  match d with
  | Mapping items =>
      (fix outline_items (items : list (string * Document)) :=
         match items with
         | [] => []
         | (k, v) :: rest =>
             KeyLine depth k (type_of v) (preview v)
             :: (if is_container v then
                   if descend max_depth depth
                   then outline max_depth (S depth) v
                   else [DepthMarker (S depth)]
                 else [])
             ++ outline_items rest
         end) items
  | Sequence elems =>
      (fix outline_elems (budget i : nat) (elems : list Document)
           {struct elems} : list outline_item :=
         match elems with
         | [] => []
         | v :: rest =>
             match budget with
             | O => [MoreElements depth (length elems)]
             | S budget' =>
                 ElemLine depth i (type_of v) (preview v)
                 :: (if is_container v then
                       if descend max_depth depth
                       then outline max_depth (S depth) v
                       else [DepthMarker (S depth)]
                     else [])
                 ++ outline_elems budget' (S i) rest
             end
         end) (SAMPLE_ELEMENTS K) 0%nat elems
  | Leaf _ => [ScalarLine depth (type_of d) (preview d)]
  end.

(** Modelled from the spec: [inspect_profile(profile, max_depth)] of
    oh_parser/extract.py; the result stands for the outline printed.
    "max_depth must be >= 0"; a negative one is an InvalidArgument. *)
Definition inspect_profile (profile : Document) (max_depth : Z)
  : result (list outline_item) :=
  if max_depth <? 0
  then Raise (InvalidArgument "max_depth must be >= 0")
  else Ok (outline max_depth 0 profile).

(** Modelled from the spec: the probe of a candidate field path of
    oh_parser/extract.py, key by key through nested mappings. *)
Fixpoint get_nested (d : Document) (keys : list string) : option Document :=
  match keys with
  | [] => Some d
  | k :: rest =>
      match d with
      | Mapping items =>
          match assoc k items with
          | Some v => get_nested v rest
          | None => None
          end
      | _ => None
      end
  end.

(** Modelled from the spec: a field of oh_parser/extract.py is present
    when its path "resolves to a present (non-absent) value". *)
Definition field_present (profile : Document) (keys : list string) : bool :=
  match get_nested profile keys with
  | Some (Leaf JNull) | None => false
  | Some _ => true
  end.

(** Modelled from the spec: the row of one subject in oh_parser/extract.py,
    a boolean per candidate field. *)
Definition summary_row (subject_id : string) (profile : Document) : SummaryRow :=
  {| row_subject := subject_id;
     row_fields :=
       map (fun '(column, keys) => (column, field_present profile keys))
           (CANDIDATE_FIELDS K) |}.

(** Modelled from the spec: [summarize_profiles(store)] of
    oh_parser/extract.py: the subjects in listing order, each looked up
    in the store and probed. *)
Definition summarize_profiles (store : gmap string Document) : list SummaryRow :=
  omap (fun subject_id => summary_row subject_id <$> store !! subject_id)
       (Loader.list_subjects store).

End WithConstants.

(** Modelled from the spec: the depth-bounded walk of the path enumerator
    of oh_parser/extract.py: a path for every node visited, container or
    leaf, in the order of the visit (insertion order for mappings, index
    order for sequences), without deduplication. *)
Fixpoint walk (max_depth : Z) (depth : nat) (prefix : path) (d : Document)
    {struct d} : list path :=
  match d with
  | Mapping items =>
      (fix walk_items (items : list (string * Document)) : list path :=
         match items with
         | [] => []
         | (k, v) :: rest =>
             ((prefix ++ [Key k])
              :: (if descend max_depth depth
                  then walk max_depth (S depth) (prefix ++ [Key k]) v
                  else []))
             ++ walk_items rest
         end) items
  | Sequence elems =>
      (fix walk_elems (i : nat) (elems : list Document) : list path :=
         match elems with
         | [] => []
         | v :: rest =>
             ((prefix ++ [Index i])
              :: (if descend max_depth depth
                  then walk max_depth (S depth) (prefix ++ [Index i]) v
                  else []))
             ++ walk_elems (S i) rest
         end) 0%nat elems
  | Leaf _ => []
  end.

(** Modelled from the spec: the path enumerator of oh_parser/extract.py
    with the paths still as segment lists; a negative [max_depth] is an
    InvalidArgument. *)
Definition enumerate_paths (profile : Document) (max_depth : Z)
  : result (list path) :=
  if max_depth <? 0
  then Raise (InvalidArgument "max_depth must be >= 0")
  else Ok (walk max_depth 0 [] profile).

(** Modelled from the spec: [get_available_paths(profile, max_depth)] of
    oh_parser/extract.py, the paths as strings. *)
Definition get_available_paths (profile : Document) (max_depth : Z)
  : result (list string) :=
  match enumerate_paths profile max_depth with
  | Ok paths => Ok (map render_path paths)
  | Raise e => Raise e
  end.

End Extract.

(** ** The command-line front end (oh_parser/cli.py) *)

Module Cli.

(** What a run writes.  The outline and the summary table are kept as
    data: their layout as text belongs to the inspector and to the table
    type.  The stream of the loader's messages is the loader's choice. *)
Inductive event : Type :=
  | Stdout (text : string)
  | Stderr (text : string)
  | LoadMessage (text : string)
  | OutlineLine (item : Extract.outline_item)
  | Table (rows : list Extract.SummaryRow).

(** What cuts a run short: [sys.exit(code)], or an exception nobody
    catches. *)
Inductive stop : Type :=
  | SystemExit (code : Z)
  | Uncaught (e : exn).

(** A computation writes events and either stops or goes on with a
    value. *)
Definition prog (A : Type) : Type := list event * (stop + A).

#[global] Instance prog_ret : MRet prog := fun A a => ([], inr a).

#[global] Instance prog_bind : MBind prog := fun A B f m =>
  match m with
  | (written, inl s) => (written, inl s)
  | (written, inr a) =>
      let '(more, r) := f a in (written ++ more, r)
  end.

Definition emit (es : list event) : prog unit := (es, inr tt).

(** [print(text)] and [print(text, file=sys.stderr)] end the line;
    [print(text, end="")] does not. *)
Definition print (text : string) : prog unit := emit [Stdout (text +:+ nl)].
Definition print_no_end (text : string) : prog unit := emit [Stdout text].
Definition print_err (text : string) : prog unit := emit [Stderr (text +:+ nl)].

Definition sys_exit {A : Type} (code : Z) : prog A := ([], inl (SystemExit code)).

Definition call {A : Type} (r : result A) : prog A :=
  match r with
  | Ok a => mret a
  | Raise e => ([], inl (Uncaught e))
  end.

Fixpoint for_each {A : Type} (l : list A) (body : A -> prog unit) : prog unit :=
  match l with
  | [] => mret tt
  | x :: rest => _ ← body x; for_each rest body
  end.

(** [l[i]] raises IndexError out of range. *)
Definition item {A : Type} (l : list A) (i : nat) : prog A :=
  match l !! i with
  | Some x => mret x
  | None => call (Raise (IndexError "list index out of range"))
  end.

Fixpoint join (sep : string) (l : list string) : string :=
  match l with
  | [] => EmptyString
  | [s] => s
  | s :: rest => s +:+ sep +:+ join sep rest
  end.

Fixpoint str_repeat (s : string) (n : nat) : string :=
  match n with
  | O => EmptyString
  | S n' => s +:+ str_repeat s n'
  end.

(** The namespace [parse_args] returns. *)
Record Args : Type := {
  directory : string;
  list_subjects : bool;
  inspect : option string;
  depth : Z;
  paths : option string;
  summary : bool;
  quiet : bool
}.

Definition DEFAULT_OH_DIRECTORY : string :=
  "E:\Backup PrevOccupAI_PLUS Data\OH_profiles".

(** The namespace of an invocation without arguments. *)
Definition default_args : Args :=
  {| directory := DEFAULT_OH_DIRECTORY; list_subjects := false;
     inspect := None; depth := 3; paths := None; summary := false;
     quiet := false |}.

(** [if args.inspect:] on an optional string: [None] and the empty
    string are both false. *)
Definition truthy (o : option string) : option string :=
  match o with
  | Some s => if String.eqb s EmptyString then None else Some s
  | None => None
  end.

(** [profile is None]: Python has one [None], which is the absent value of
    [get_profile] and also the value of a Document that is the JSON
    [null]. *)
Definition not_None (found : option Document) : option Document :=
  match found with
  | Some (Leaf JNull) | None => None
  | Some profile => Some profile
  end.

Section Main.
Context (K : Extract.Constants).

(** The branches of [main] follow, each under the name of its action.
    Lines 87 to 90: [--list]. *)
Definition run_list (profiles : gmap string Document) : prog unit :=
  let subjects := Loader.list_subjects profiles in
  _ ← print (nl +:+ "Subjects (" +:+ pretty (length subjects) +:+ "):");
  for_each subjects (fun s => print ("  " +:+ s)).

(** Lines 93 to 98: [--inspect SUBJECT_ID]. *)
Definition run_inspect (profiles : gmap string Document) (args : Args)
    (subject : string) : prog unit :=
  found ← call (Loader.get_profile profiles subject);
  profile ← match not_None found with
            | None =>
                _ ← print_err ("Error: Subject '" +:+ subject +:+ "' not found.");
                sys_exit 1
            | Some profile => mret profile
            end;
  _ ← print (nl +:+ "Inspecting profile for subject: " +:+ subject);
  lines ← call (Extract.inspect_profile K profile (depth args));
  emit (OutlineLine <$> lines).

(** Lines 101 to 110: [--paths SUBJECT_ID]. *)
Definition run_paths (profiles : gmap string Document) (subject : string)
  : prog unit :=
  found ← call (Loader.get_profile profiles subject);
  profile ← match not_None found with
            | None =>
                _ ← print_err ("Error: Subject '" +:+ subject +:+ "' not found.");
                sys_exit 1
            | Some profile => mret profile
            end;
  available ← call (Extract.get_available_paths profile 6);
  _ ← print (nl +:+ "Available paths for subject " +:+ subject +:+ " ("
             +:+ pretty (length available) +:+ " total):");
  _ ← for_each (take 50 available) (fun p => print ("  " +:+ p));
  if (50 <? length available)%nat
  then print ("  ... and " +:+ pretty (length available - 50)%nat +:+ " more")
  else mret tt.

(** Lines 113 to 115: [--summary]; the table [df] is written as one
    event. *)
Definition run_summary (profiles : gmap string Document) : prog unit :=
  _ ← print (nl +:+ "Data availability summary:");
  emit [Table (Extract.summarize_profiles K profiles)].

(** Lines 119 to 131: no action flag. *)
Definition run_default (profiles : gmap string Document) (args : Args)
  : prog unit :=
  let subjects := Loader.list_subjects profiles in
  let rule := str_repeat "=" 60 in
  _ ← print (nl +:+ rule);
  _ ← print ("OH Parser - Loaded " +:+ pretty (length subjects) +:+ " profiles");
  _ ← print rule;
  _ ← print_no_end (nl +:+ "Subjects: " +:+ join ", " (take 10 subjects));
  _ ← (if (10 <? length subjects)%nat
       then print (" ... and " +:+ pretty (length subjects - 10)%nat +:+ " more")
       else print EmptyString);
  _ ← print (nl +:+ "Usage examples:");
  _ ← print ("  oh_parser " +:+ dquote +:+ directory args +:+ dquote +:+ " --list");
  first ← item subjects 0;
  _ ← print ("  oh_parser " +:+ dquote +:+ directory args +:+ dquote
             +:+ " --inspect " +:+ first);
  print ("  oh_parser " +:+ dquote +:+ directory args +:+ dquote +:+ " --summary").

(** [main()], lines 78 to 131, on a file system [fs]: what [main] does
    with the namespace [args] once [parse_args] has returned it.  The
    exits of argparse itself at line 76 are in [main_from] below. *)
Definition main (fs : Loader.FileSystem) (args : Args) : prog unit :=
  '(profiles, messages) ← call (Loader.load_profiles fs (directory args)
                                   (negb (quiet args)));
  _ ← emit (LoadMessage <$> messages);
  _ ← (if (size profiles =? 0)%nat
       then _ ← print_err "No profiles loaded."; sys_exit 1
       else mret tt);
  if list_subjects args then run_list profiles
  else match truthy (inspect args) with
  | Some subject => run_inspect profiles args subject
  | None =>
  match truthy (paths args) with
  | Some subject => run_paths profiles subject
  | None =>
  if summary args then run_summary profiles
  else run_default profiles args
  end end.

End Main.

Definition written {A : Type} (r : prog A) : list event := r.1.
Definition outcome {A : Type} (r : prog A) : stop + A := r.2.

(** The status that [main] itself gives the process: 0 when it returns,
    the code given to [sys.exit] otherwise, and none when an exception
    escapes [main]: the interpreter then writes the traceback and sets the
    status, see [exit_status] below. *)
Definition exit_code (r : prog unit) : option Z :=
  match outcome r with
  | inr _ => Some 0
  | inl (SystemExit code) => Some code
  | inl (Uncaught _) => None
  end.

Definition is_stderr (e : event) : bool :=
  match e with Stderr _ => true | _ => false end.
Definition is_outline (e : event) : bool :=
  match e with OutlineLine _ => true | _ => false end.

End Cli.

(** ** The exploration script (testing.py) *)

Module Testing.

(** What the script can end in besides running to its end: an exception
    out of a library call or out of [subjects[0]], or the [ValueError] it
    raises itself. *)
Inductive script_exn : Type :=
  | Library (e : exn)
  | ValueError (msg : string).

Inductive script_end : Type :=
  | Finished
  | Raised (e : script_exn).

Section Script.
(** [K]: the constants of oh_parser/extract.py.  [VERBOSE_DEFAULT]: the
    default of the [verbose] parameter of [load_profiles], which the
    script leaves to the loader. *)
Context (K : Extract.Constants) (VERBOSE_DEFAULT : bool).

(** testing.py, lines 4 to 17, on a file system [fs]: what it writes, and
    how it ends. *)
Definition script (fs : Loader.FileSystem) : list Cli.event * script_end :=
  match Loader.load_profiles fs Cli.DEFAULT_OH_DIRECTORY VERBOSE_DEFAULT with
  | Raise e => ([], Raised (Library e))
  | Ok (profiles, messages) =>
      let subjects := Loader.list_subjects profiles in
      let out :=
        (Cli.LoadMessage <$> messages)
        ++ [Cli.Stdout (("Loaded " +:+ pretty (length subjects) +:+ " subjects")
                        +:+ nl)] in
      match subjects !! 0%nat with
      | None => (out, Raised (Library (IndexError "list index out of range")))
      | Some first =>
          match Loader.get_profile profiles first with
          | Raise e => (out, Raised (Library e))
          | Ok found =>
              match Cli.not_None found with
              | Some profile =>
                  match Extract.inspect_profile K profile 3 with
                  | Ok lines => (out ++ (Cli.OutlineLine <$> lines), Finished)
                  | Raise e => (out, Raised (Library e))
                  end
              | None =>
                  (out, Raised (ValueError
                                  ("No profile found for subject: " +:+ first)))
              end
          end
      end
  end.

End Script.

End Testing.

(** ** Vocabulary of the statements *)

(** The files of a listing that end up in the store. *)
Definition loadable (e : Loader.dir_entry) : bool :=
  Loader.matches_json (Loader.entry_name e)
  && bool_decide (is_Some (Loader.entry_json e)).

Definition stems (entries : list Loader.dir_entry) : list string :=
  (fun e => Loader.file_stem (Loader.entry_name e)) <$> entries.

(** A directory of well-formed JSON files only. *)
Definition well_formed_json_file (e : Loader.dir_entry) : Prop :=
  Loader.matches_json (Loader.entry_name e) = true /\ is_Some (Loader.entry_json e).

(** The walks over the children of a container, as functions of their own;
    the lemmas [walk_Mapping], [preorder_Mapping] and the like show that
    they are the inner loops of [Extract.walk] and [preorder]. *)
Definition walk_child (max_depth : Z) (depth : nat) (p : path) (v : Document)
  : list path :=
  p :: (if Extract.descend max_depth depth
        then Extract.walk max_depth (S depth) p v else []).

Fixpoint walk_items (max_depth : Z) (depth : nat) (prefix : path)
    (items : list (string * Document)) : list path :=
  match items with
  | [] => []
  | (k, v) :: rest =>
      walk_child max_depth depth (prefix ++ [Key k]) v
      ++ walk_items max_depth depth prefix rest
  end.

Fixpoint walk_elems (max_depth : Z) (depth : nat) (prefix : path) (i : nat)
    (elems : list Document) : list path :=
  match elems with
  | [] => []
  | v :: rest =>
      walk_child max_depth depth (prefix ++ [Index i]) v
      ++ walk_elems max_depth depth prefix (S i) rest
  end.

Fixpoint preorder_items (prefix : path) (items : list (string * Document))
  : list path :=
  match items with
  | [] => []
  | (k, v) :: rest =>
      ((prefix ++ [Key k]) :: preorder (prefix ++ [Key k]) v)
      ++ preorder_items prefix rest
  end.

Fixpoint preorder_elems (prefix : path) (i : nat) (elems : list Document)
  : list path :=
  match elems with
  | [] => []
  | v :: rest =>
      ((prefix ++ [Index i]) :: preorder (prefix ++ [Index i]) v)
      ++ preorder_elems prefix (S i) rest
  end.

(** The longest path, in segments, that a walk bounded by [max_depth]
    produces: the top level always, deeper levels up to [max_depth]. *)
Definition max_segments (max_depth : Z) : nat := Nat.max 1 (Z.to_nat max_depth).

Definition within (max_depth : Z) (p : path) : Prop :=
  (length p <= max_segments max_depth)%nat.

#[global] Instance within_dec (max_depth : Z) (p : path) :
  Decision (within max_depth p).
Proof. unfold within. apply _. Defined.

(** A Document is non-empty when it is a container with a child. *)
Definition non_empty (d : Document) : Prop := (0 < children_count d)%nat.

(** The bounded walk below a container at depth [depth] keeps, of the whole
    traversal and in its order, the paths of at most
    [max (depth + 1) max_depth] segments. *)
Definition walk_is_filter (d : Document) : Prop :=
  forall (max_depth : Z) (depth : nat) (prefix : path),
    length prefix = depth ->
    Extract.walk max_depth depth prefix d
    = filter (fun q => (length q <= Nat.max (S depth) (Z.to_nat max_depth))%nat)
             (preorder prefix d).

(** The traversal below [prefix] lists the addresses of the nodes of [d]
    other than its root, and nothing else. *)
Definition covers (d : Document) : Prop :=
  forall (prefix q : path),
    q ∈ preorder prefix d
    <-> exists t, q = prefix ++ t /\ t <> [] /\ is_Some (resolve d t).

(** *** Invocations *)

(** What the loader hands to an invocation: the store and its messages. *)
Definition loaded (fs : Loader.FileSystem) (args : Cli.Args)
  : gmap string Document * list string :=
  match Loader.load_profiles fs (Cli.directory args) (negb (Cli.quiet args)) with
  | Ok r => r
  | Raise _ => (∅, [])
  end.

Definition loaded_store (fs : Loader.FileSystem) (args : Cli.Args)
  : gmap string Document := (loaded fs args).1.

Definition load_messages (fs : Loader.FileSystem) (args : Cli.Args)
  : list Cli.event := Cli.LoadMessage <$> (loaded fs args).2.

(** The four action flags, in the order [main] tests them. *)
Inductive flag : Type := FList | FInspect | FPaths | FSummary.

Definition precedence : list flag := [FList; FInspect; FPaths; FSummary].

(** A flag is given when it stands on the command line. *)
Definition given (args : Cli.Args) (f : flag) : bool :=
  match f with
  | FList => Cli.list_subjects args
  | FInspect => bool_decide (is_Some (Cli.inspect args))
  | FPaths => bool_decide (is_Some (Cli.paths args))
  | FSummary => Cli.summary args
  end.

(** A flag is supplied when it is given and, for a flag with a value, the
    value is not the empty string. *)
Definition supplied (args : Cli.Args) (f : flag) : bool :=
  match f with
  | FList => Cli.list_subjects args
  | FInspect => bool_decide (is_Some (Cli.truthy (Cli.inspect args)))
  | FPaths => bool_decide (is_Some (Cli.truthy (Cli.paths args)))
  | FSummary => Cli.summary args
  end.

Definition count_flags (sup : flag -> bool) : nat :=
  length (filter (fun f => sup f = true) precedence).

(** The first flag of the precedence list that [sup] holds of. *)
Definition winner (sup : flag -> bool) : option flag :=
  head (filter (fun f => sup f = true) precedence).

(** The invocation that keeps, of the action flags, only [f]. *)
Definition only (f : flag) (args : Cli.Args) : Cli.Args :=
  {| Cli.directory := Cli.directory args;
     Cli.list_subjects :=
       match f with FList => Cli.list_subjects args | _ => false end;
     Cli.inspect := match f with FInspect => Cli.inspect args | _ => None end;
     Cli.depth := Cli.depth args;
     Cli.paths := match f with FPaths => Cli.paths args | _ => None end;
     Cli.summary := match f with FSummary => Cli.summary args | _ => false end;
     Cli.quiet := Cli.quiet args |}.

(** The invocation without its [--inspect], and without its [--paths]. *)
Definition without_inspect (args : Cli.Args) : Cli.Args :=
  {| Cli.directory := Cli.directory args;
     Cli.list_subjects := Cli.list_subjects args;
     Cli.inspect := None; Cli.depth := Cli.depth args;
     Cli.paths := Cli.paths args; Cli.summary := Cli.summary args;
     Cli.quiet := Cli.quiet args |}.

Definition without_paths (args : Cli.Args) : Cli.Args :=
  {| Cli.directory := Cli.directory args;
     Cli.list_subjects := Cli.list_subjects args;
     Cli.inspect := Cli.inspect args; Cli.depth := Cli.depth args;
     Cli.paths := None; Cli.summary := Cli.summary args;
     Cli.quiet := Cli.quiet args |}.

(** The action that belongs to a flag. *)
Definition action (K : Extract.Constants) (profiles : gmap string Document)
    (args : Cli.Args) (f : flag) : Cli.prog unit :=
  match f with
  | FList => Cli.run_list profiles
  | FInspect =>
      match Cli.truthy (Cli.inspect args) with
      | Some subject => Cli.run_inspect K profiles args subject
      | None => mret tt
      end
  | FPaths =>
      match Cli.truthy (Cli.paths args) with
      | Some subject => Cli.run_paths profiles subject
      | None => mret tt
      end
  | FSummary => Cli.run_summary K profiles
  end.

(** A run that first writes [es] and then goes on as [m]. *)
Definition after {A : Type} (es : list Cli.event) (m : Cli.prog A) : Cli.prog A :=
  (es ++ m.1, m.2).

(** The run of an invocation that loads no profile. *)
Definition no_profiles_run (fs : Loader.FileSystem) (args : Cli.Args)
  : Cli.prog unit :=
  (load_messages fs args ++ [Cli.Stderr ("No profiles loaded." +:+ nl)],
   inl (Cli.SystemExit 1)).

(** The if/elif chain of [main], lines 86 to 131: what [main] does once
    the store is known not to be empty. *)
Definition dispatch (K : Extract.Constants) (profiles : gmap string Document)
    (args : Cli.Args) : Cli.prog unit :=
  if Cli.list_subjects args then Cli.run_list profiles
  else match Cli.truthy (Cli.inspect args) with
       | Some subject => Cli.run_inspect K profiles args subject
       | None =>
           match Cli.truthy (Cli.paths args) with
           | Some subject => Cli.run_paths profiles subject
           | None =>
               if Cli.summary args then Cli.run_summary K profiles
               else Cli.run_default profiles args
           end
       end.

(** The lines [print] writes for the items of a list. *)
Definition printed (lines : list string) : list Cli.event :=
  (fun line => Cli.Stdout (line +:+ nl)) <$> lines.

(** The message for a subject that the store does not hold. *)
Definition not_found (subject : string) : Cli.event :=
  Cli.Stderr (("Error: Subject '" +:+ subject +:+ "' not found.") +:+ nl).

(** What [--paths] writes for the paths [available] of [subject]. *)
Definition paths_report (subject : string) (available : list string)
  : list Cli.event :=
  printed [nl +:+ "Available paths for subject " +:+ subject +:+ " ("
           +:+ pretty (length available) +:+ " total):"]
  ++ printed ((fun p => "  " +:+ p) <$> take 50 available)
  ++ (if (50 <? length available)%nat
      then printed ["  ... and " +:+ pretty (length available - 50)%nat +:+ " more"]
      else []).

(** What the no-flag default writes for the listing [subjects], whose first
    item is [first]. *)
Definition default_report (dir : string) (subjects : list string)
    (first : string) : list Cli.event :=
  printed [nl +:+ Cli.str_repeat "=" 60;
           "OH Parser - Loaded " +:+ pretty (length subjects) +:+ " profiles";
           Cli.str_repeat "=" 60]
  ++ [Cli.Stdout (nl +:+ "Subjects: " +:+ Cli.join ", " (take 10 subjects))]
  ++ printed [if (10 <? length subjects)%nat
              then " ... and " +:+ pretty (length subjects - 10)%nat +:+ " more"
              else EmptyString]
  ++ printed [nl +:+ "Usage examples:";
              "  oh_parser " +:+ dquote +:+ dir +:+ dquote +:+ " --list";
              "  oh_parser " +:+ dquote +:+ dir +:+ dquote +:+ " --inspect " +:+ first;
              "  oh_parser " +:+ dquote +:+ dir +:+ dquote +:+ " --summary"].

(** ** Sample data *)

(** [A.json = {"x": {"y": 1}}] and [B.json = {"x": 1}]. *)
Definition doc_A : Document := Mapping [("x", Mapping [("y", Leaf (JInt 1))])].
Definition doc_B : Document := Mapping [("x", Leaf (JInt 1))].

Definition sample_entries : list Loader.dir_entry :=
  [ {| Loader.entry_name := "A.json"; Loader.entry_json := Some doc_A |};
    {| Loader.entry_name := "B.json"; Loader.entry_json := Some doc_B |} ].

Definition sample_fs : Loader.FileSystem :=
  {[ "profiles" := sample_entries ]}.

(** A directory in which [N.json] holds the JSON value [null]. *)
Definition null_fs : Loader.FileSystem :=
  {[ "profiles" :=
       [ {| Loader.entry_name := "A.json"; Loader.entry_json := Some doc_A |};
         {| Loader.entry_name := "N.json";
            Loader.entry_json := Some (Leaf JNull) |} ] ]}.

Definition sample_store : gmap string Document :=
  <["A" := doc_A]> (<["B" := doc_B]> ∅).

Definition sample_constants : Extract.Constants :=
  {| Extract.SAMPLE_ELEMENTS := 3; Extract.PREVIEW_CHARS := 40;
     Extract.CANDIDATE_FIELDS := [("has_x", ["x"]); ("has_x_y", ["x"; "y"])] |}.

(** Sample invocations: [--depth 3 --quiet] and the given action flags. *)
Definition args_on (dir : string) (list_flag : bool) (inspect_flag : option string)
    (paths_flag : option string) (summary_flag : bool) : Cli.Args :=
  {| Cli.directory := dir; Cli.list_subjects := list_flag;
     Cli.inspect := inspect_flag; Cli.depth := 3; Cli.paths := paths_flag;
     Cli.summary := summary_flag; Cli.quiet := true |}.

(** [oh_parser profiles --list --inspect ghost] *)
Definition args_list_inspect_ghost : Cli.Args :=
  args_on "profiles" true (Some "ghost") None false.
(** [oh_parser profiles --inspect ''] *)
Definition args_inspect_empty : Cli.Args :=
  args_on "profiles" false (Some EmptyString) None false.
(** [oh_parser profiles --inspect ghost] *)
Definition args_inspect_ghost : Cli.Args :=
  args_on "profiles" false (Some "ghost") None false.
(** [oh_parser profiles --list --paths ghost] *)
Definition args_list_paths_ghost : Cli.Args :=
  args_on "profiles" true None (Some "ghost") false.
(** [oh_parser profiles --paths ''] *)
Definition args_paths_empty : Cli.Args :=
  args_on "profiles" false None (Some EmptyString) false.
(** [oh_parser profiles --paths A] *)
Definition args_paths_A : Cli.Args :=
  args_on "profiles" false None (Some "A") false.
(** [oh_parser nowhere --list --summary] *)
Definition args_nowhere_list_summary : Cli.Args :=
  args_on "nowhere" true None None true.
(** [oh_parser profiles --inspect '' --paths A] *)
Definition args_inspect_empty_paths_A : Cli.Args :=
  args_on "profiles" false (Some EmptyString) (Some "A") false.
(** [oh_parser profiles --inspect A --paths B --summary] *)
Definition args_inspect_A_paths_B_summary : Cli.Args :=
  args_on "profiles" false (Some "A") (Some "B") true.
(** [oh_parser profiles --inspect N] *)
Definition args_inspect_N : Cli.Args :=
  args_on "profiles" false (Some "N") None false.
(** [oh_parser profiles --paths N] *)
Definition args_paths_N : Cli.Args :=
  args_on "profiles" false None (Some "N") false.
(** [oh_parser profiles] *)
Definition args_no_flag : Cli.Args :=
  args_on "profiles" false None None false.

(** *** More invocations *)

(** The store that [load_profiles] builds from a directory; it does not
    depend on [verbose]. *)
Definition store_of (fs : Loader.FileSystem) (dir : string)
  : gmap string Document :=
  match fs !! dir with
  | Some entries => (Loader.scan entries).1
  | None => ∅
  end.

(** The invocation with [--quiet] set or cleared, and with another
    [--depth]. *)
Definition with_quiet (q : bool) (args : Cli.Args) : Cli.Args :=
  {| Cli.directory := Cli.directory args;
     Cli.list_subjects := Cli.list_subjects args;
     Cli.inspect := Cli.inspect args; Cli.depth := Cli.depth args;
     Cli.paths := Cli.paths args; Cli.summary := Cli.summary args;
     Cli.quiet := q |}.

Definition with_depth (d : Z) (args : Cli.Args) : Cli.Args :=
  {| Cli.directory := Cli.directory args;
     Cli.list_subjects := Cli.list_subjects args;
     Cli.inspect := Cli.inspect args; Cli.depth := d;
     Cli.paths := Cli.paths args; Cli.summary := Cli.summary args;
     Cli.quiet := Cli.quiet args |}.

Definition is_load_message (e : Cli.event) : bool :=
  match e with Cli.LoadMessage _ => true | _ => false end.

(** The events of a run that are the output of the actions: printed
    lines, the outline and the table. *)
Definition to_stdout (e : Cli.event) : bool :=
  match e with
  | Cli.Stdout _ | Cli.OutlineLine _ | Cli.Table _ => true
  | Cli.Stderr _ | Cli.LoadMessage _ => false
  end.

(** The header lines of the actions. *)
Definition list_header (n : nat) : string :=
  nl +:+ "Subjects (" +:+ pretty n +:+ "):".

Definition inspect_header (subject : string) : string :=
  nl +:+ "Inspecting profile for subject: " +:+ subject.

(** What the script writes before it looks at the first subject: the
    loader's messages and the count of subjects. *)
Definition script_messages (verbose : bool) (fs : Loader.FileSystem)
  : list Cli.event :=
  match Loader.load_profiles fs Cli.DEFAULT_OH_DIRECTORY verbose with
  | Ok r => Cli.LoadMessage <$> r.2
  | Raise _ => []
  end.

Definition loaded_line (n : nat) : Cli.event :=
  Cli.Stdout (("Loaded " +:+ pretty n +:+ " subjects") +:+ nl).

(** The sample directory at the default path, and one whose only file does
    not parse. *)
Definition default_dir_fs : Loader.FileSystem :=
  {[ Cli.DEFAULT_OH_DIRECTORY := sample_entries ]}.

Definition broken_fs : Loader.FileSystem :=
  {[ "profiles" :=
       [ {| Loader.entry_name := "A.json"; Loader.entry_json := None |} ] ]}.

(** [oh_parser profiles --inspect A --depth -1 --quiet] *)
Definition args_inspect_A_negative : Cli.Args :=
  with_depth (-1) (args_on "profiles" false (Some "A") None false).
(** [oh_parser profiles --list --quiet] *)
Definition args_list : Cli.Args := args_on "profiles" true None None false.
(** [oh_parser profiles --summary --quiet] *)
Definition args_summary : Cli.Args := args_on "profiles" false None None true.

(** *** The process *)

(** What [parser.parse_args()], line 76 of [main], comes to.  argparse
    returns the namespace; or it ends the process itself: for a command
    line that it rejects (an unknown flag, a [--depth] that is not an
    integer) it writes the usage and the error to stderr and exits with
    status 2, and for [--help] it writes the help text to stdout and exits
    with status 0. *)
Inductive parse_outcome : Type :=
  | Parsed (args : Cli.Args)
  | Rejected (usage : string)
  | Help (text : string).

(** [main()] from its first line: the outcome of [parse_args], then
    [Cli.main] on the namespace. *)
Definition main_from (K : Extract.Constants) (fs : Loader.FileSystem)
    (p : parse_outcome) : Cli.prog unit :=
  match p with
  | Parsed args => Cli.main K fs args
  | Rejected usage => ([Cli.Stderr usage], inl (Cli.SystemExit 2))
  | Help text => ([Cli.Stdout text], inl (Cli.SystemExit 0))
  end.

(** The exit status of the process: the code given to [sys.exit], 0 after
    [main] returns, and 1 when an exception escapes, which the interpreter
    reports with a traceback on stderr. *)
Definition exit_status (r : Cli.prog unit) : Z :=
  match Cli.outcome r with
  | inr _ => 0
  | inl (Cli.SystemExit code) => code
  | inl (Cli.Uncaught _) => 1
  end.

(** The subject that the selected action looks up: that of [--inspect],
    else that of [--paths], when [--list] is not given. *)
Definition selected_subject (args : Cli.Args) : option string :=
  if Cli.list_subjects args then None
  else match Cli.truthy (Cli.inspect args) with
       | Some subject => Some subject
       | None => Cli.truthy (Cli.paths args)
       end.

(** The inspect action runs on a subject of the store with a negative
    [--depth]. *)
Definition negative_depth_inspect (store : gmap string Document)
    (args : Cli.Args) : Prop :=
  Cli.list_subjects args = false /\
  Cli.depth args < 0 /\
  exists subject, Cli.truthy (Cli.inspect args) = Some subject
                  /\ is_Some (store !! subject).

(** * Properties *)

(** ** The string order *)

Lemma ascii_compare_refl (a : ascii) : Ascii.compare a a = Eq.
Proof. unfold Ascii.compare. apply N.compare_refl. Qed.

Lemma ascii_compare_lt_trans (a b c : ascii) :
  Ascii.compare a b = Lt -> Ascii.compare b c = Lt -> Ascii.compare a c = Lt.
Proof.
  unfold Ascii.compare. rewrite !N.compare_lt_iff. lia.
Qed.

Lemma str_le_trans (s1 s2 s3 : string) :
  str_le s1 s2 -> str_le s2 s3 -> str_le s1 s3.
Proof.
  unfold str_le, String.leb. revert s2 s3.
  induction s1 as [|a s1 IH]; intros [|b s2] [|c s3]; simpl; try congruence.
  destruct (Ascii.compare a b) eqn:Hab; try congruence;
    destruct (Ascii.compare b c) eqn:Hbc; try congruence; intros H12 H23.
  - apply Ascii.compare_eq_iff in Hab, Hbc. subst.
    rewrite ascii_compare_refl. eauto.
  - apply Ascii.compare_eq_iff in Hab. subst. now rewrite Hbc.
  - apply Ascii.compare_eq_iff in Hbc. subst. now rewrite Hab.
  - now rewrite (ascii_compare_lt_trans a b c).
Qed.

#[global] Instance str_le_transitive : Transitive str_le.
Proof. intros s1 s2 s3. apply str_le_trans. Qed.

#[global] Instance str_le_total : Total str_le.
Proof. intros s1 s2. apply String.leb_total. Qed.

#[global] Instance str_le_antisym : AntiSymm (=) str_le.
Proof. intros s1 s2. apply String.leb_antisym. Qed.

(** ** The profile store *)

Section LoaderFacts.
Import Loader.

Lemma load_entry_dom (acc : Store * list string) (e : dir_entry) :
  dom (load_entry acc e).1 =
  dom acc.1 ∪ (if loadable e then {[ file_stem (entry_name e) ]} else ∅).
Proof.
  unfold load_entry, loadable.
  destruct (matches_json (entry_name e)); simpl; [|set_solver].
  destruct (entry_json e) as [doc|]; simpl.
  - rewrite dom_insert_L. set_solver.
  - set_solver.
Qed.

Lemma foldl_load_entry_dom (entries : list dir_entry) (acc : Store * list string) :
  dom (foldl load_entry acc entries).1 =
  dom acc.1 ∪ list_to_set (stems (filter (fun e => loadable e = true) entries)).
Proof.
  revert acc. induction entries as [|e entries IH]; intros acc; simpl.
  - unfold stems. simpl. set_solver.
  - rewrite IH, load_entry_dom. rewrite filter_cons.
    destruct (loadable e) eqn:He.
    + rewrite decide_True by done. unfold stems. simpl. set_solver.
    + rewrite decide_False by done. set_solver.
Qed.

Lemma scan_dom (entries : list dir_entry) :
  dom (scan entries).1 =
  list_to_set (stems (filter (fun e => loadable e = true) entries)).
Proof.
  unfold scan. rewrite foldl_load_entry_dom. simpl. set_solver.
Qed.

Lemma list_subjects_elem_of (store : Store) (subject_id : string) :
  subject_id ∈ list_subjects store <-> subject_id ∈ dom store.
Proof.
  unfold list_subjects. rewrite merge_sort_Permutation. apply elem_of_elements.
Qed.

Lemma list_subjects_NoDup (store : Store) : NoDup (list_subjects store).
Proof.
  unfold list_subjects. rewrite merge_sort_Permutation. apply NoDup_elements.
Qed.

Lemma list_subjects_sorted (store : Store) :
  StronglySorted str_le (list_subjects store).
Proof. apply StronglySorted_merge_sort; apply _. Qed.

Lemma list_subjects_length (store : Store) :
  length (list_subjects store) = size store.
Proof.
  unfold list_subjects. rewrite merge_sort_Permutation.
  rewrite <- size_dom. reflexivity.
Qed.

Lemma list_subjects_lookup (store : Store) (subject_id : string) :
  subject_id ∈ list_subjects store -> is_Some (store !! subject_id).
Proof. rewrite list_subjects_elem_of. apply elem_of_dom. Qed.

End LoaderFacts.

Section LoadProfiles.
Import Loader.

Lemma scan_fst_empty (entries : list dir_entry) :
  Forall (fun e => matches_json (entry_name e) = false) entries ->
  (scan entries).1 = ∅.
Proof.
  intros Hnone. apply (dom_empty_inv_L (D := gset string)).
  rewrite scan_dom.
  replace (filter (fun e => loadable e = true) entries) with (@nil dir_entry);
    [reflexivity|].
  symmetry. induction Hnone as [|e entries He _ IH]; [reflexivity|].
  rewrite filter_cons, decide_False; [exact IH|].
  unfold loadable. rewrite He. simpl. discriminate.
Qed.

Lemma filter_loadable_all (entries : list dir_entry) :
  Forall well_formed_json_file entries ->
  filter (fun e => loadable e = true) entries = entries.
Proof.
  induction 1 as [|e entries [Hname Hjson] _ IH]; [reflexivity|].
  rewrite filter_cons, decide_True, IH; [reflexivity|].
  unfold loadable. rewrite Hname. simpl. now apply bool_decide_eq_true_2.
Qed.

(** C2: for a directory that holds only well-formed JSON files,
    [load_profiles] returns a store whose key set is the set of the file
    stems, and [list_subjects] of that store lists exactly these stems, in
    sorted order and without duplicates; for a directory that does not
    exist or has no matching file, [load_profiles] returns the empty store
    instead of failing. *)
Theorem load_profiles_key_set (fs : FileSystem) (dir : string) (verbose : bool) :
  (forall entries,
      fs !! dir = Some entries ->
      Forall well_formed_json_file entries ->
      exists store messages,
        load_profiles fs dir verbose = Ok (store, messages) /\
        dom store = list_to_set (stems entries) /\
        (forall subject_id,
            subject_id ∈ list_subjects store <-> subject_id ∈ stems entries) /\
        StronglySorted str_le (list_subjects store) /\
        NoDup (list_subjects store))
  /\
  (fs !! dir = None \/
   (exists entries, fs !! dir = Some entries /\
      Forall (fun e => matches_json (entry_name e) = false) entries) ->
   exists messages, load_profiles fs dir verbose = Ok (∅, messages)).
Proof.
  split.
  - intros entries Hdir Hwf. unfold load_profiles. rewrite Hdir.
    pose proof (scan_dom entries) as Hdom.
    destruct (scan entries) as [store diagnostics]. simpl in Hdom.
    rewrite (filter_loadable_all entries Hwf) in Hdom.
    exists store, (if verbose then diagnostics else []).
    split; [reflexivity|]. split; [exact Hdom|].
    split; [|split].
    + intros subject_id. rewrite list_subjects_elem_of, Hdom.
      apply elem_of_list_to_set.
    + apply list_subjects_sorted.
    + apply list_subjects_NoDup.
  - intros [Hmissing | (entries & Hdir & Hnone)]; unfold load_profiles.
    + rewrite Hmissing. eauto.
    + rewrite Hdir. pose proof (scan_fst_empty entries Hnone) as Hempty.
      destruct (scan entries) as [store diagnostics]. simpl in Hempty. subst.
      eauto.
Qed.

(** C6: [get_profile] is a lookup: the Document for an identifier of the
    store, the absent value [None] for any other, and in both cases a
    value, never an exception. *)
Theorem get_profile_lookup (store : Store) (subject_id : string) :
  (forall doc, store !! subject_id = Some doc ->
               get_profile store subject_id = Ok (Some doc)) /\
  (store !! subject_id = None -> get_profile store subject_id = Ok None) /\
  (exists found, get_profile store subject_id = Ok found).
Proof.
  unfold get_profile. repeat split.
  - intros doc ->. reflexivity.
  - intros ->. reflexivity.
  - eauto.
Qed.

End LoadProfiles.

(** ** The path enumerator *)

Lemma walk_Mapping (max_depth : Z) (depth : nat) (prefix : path)
    (items : list (string * Document)) :
  Extract.walk max_depth depth prefix (Mapping items)
  = walk_items max_depth depth prefix items.
Proof.
  simpl. induction items as [|[k v] rest IH]; [reflexivity|].
  simpl. unfold walk_child. now rewrite IH.
Qed.

Lemma walk_elems_fix (max_depth : Z) (depth : nat) (prefix : path)
    (elems : list Document) (i : nat) :
  (fix walk_elems (i : nat) (elems : list Document) : list path :=
     match elems with
     | [] => []
     | v :: rest =>
         ((prefix ++ [Index i])
          :: (if Extract.descend max_depth depth
              then Extract.walk max_depth (S depth) (prefix ++ [Index i]) v
              else []))
         ++ walk_elems (S i) rest
     end) i elems
  = walk_elems max_depth depth prefix i elems.
Proof.
  revert i. induction elems as [|v rest IH]; intros i; [reflexivity|].
  simpl. unfold walk_child. now rewrite IH.
Qed.

Lemma walk_Sequence (max_depth : Z) (depth : nat) (prefix : path)
    (elems : list Document) :
  Extract.walk max_depth depth prefix (Sequence elems)
  = walk_elems max_depth depth prefix 0 elems.
Proof. simpl. apply walk_elems_fix. Qed.

Lemma preorder_Mapping (prefix : path) (items : list (string * Document)) :
  preorder prefix (Mapping items) = preorder_items prefix items.
Proof.
  simpl. induction items as [|[k v] rest IH]; [reflexivity|].
  simpl. now rewrite IH.
Qed.

Lemma preorder_elems_fix (prefix : path) (elems : list Document) (i : nat) :
  (fix elems_from (i : nat) (elems : list Document) : list path :=
     match elems with
     | [] => []
     | v :: rest =>
         ((prefix ++ [Index i]) :: preorder (prefix ++ [Index i]) v)
         ++ elems_from (S i) rest
     end) i elems
  = preorder_elems prefix i elems.
Proof.
  revert i. induction elems as [|v rest IH]; intros i; [reflexivity|].
  simpl. now rewrite IH.
Qed.

Lemma preorder_Sequence (prefix : path) (elems : list Document) :
  preorder prefix (Sequence elems) = preorder_elems prefix 0 elems.
Proof. simpl. apply preorder_elems_fix. Qed.

(** Every path of the traversal below [prefix] is longer than [prefix]. *)
Lemma preorder_longer (d : Document) :
  forall (prefix q : path), q ∈ preorder prefix d -> (length prefix < length q)%nat.
Proof.
  induction d as [items IH|elems IH|s] using Document_ind; intros prefix q.
  - rewrite preorder_Mapping.
    induction IH as [|[k v] rest Hv _ IHrest]; simpl; [now rewrite elem_of_nil|].
    rewrite elem_of_cons, elem_of_app.
    intros [->|[Hq|Hq]]; [| apply Hv in Hq | now apply IHrest];
      rewrite ?length_app in *; simpl in *; lia.
  - rewrite preorder_Sequence. generalize 0%nat.
    induction IH as [|v rest Hv _ IHrest]; intros i; simpl; [now rewrite elem_of_nil|].
    rewrite elem_of_cons, elem_of_app.
    intros [->|[Hq|Hq]]; [| apply Hv in Hq | now apply (IHrest (S i))];
      rewrite ?length_app in *; simpl in *; lia.
  - simpl. now rewrite elem_of_nil.
Qed.

Lemma filter_none {A : Type} (P : A -> Prop) `{!forall x, Decision (P x)}
    (l : list A) :
  (forall x, x ∈ l -> ~ P x) -> filter P l = [].
Proof.
  induction l as [|x l IH]; intros Hl; [reflexivity|].
  rewrite filter_cons_False by (apply Hl; left).
  apply IH. intros y Hy. apply Hl. now right.
Qed.

Lemma descend_true (max_depth : Z) (depth : nat) :
  Extract.descend max_depth depth = true -> (S depth < Z.to_nat max_depth)%nat.
Proof. unfold Extract.descend. intros H%Z.ltb_lt. lia. Qed.

Lemma descend_false (max_depth : Z) (depth : nat) :
  Extract.descend max_depth depth = false -> (Z.to_nat max_depth <= S depth)%nat.
Proof. unfold Extract.descend. intros H%Z.ltb_ge. lia. Qed.

Lemma walk_child_filter (max_depth : Z) (depth : nat) (p : path) (v : Document) :
  walk_is_filter v ->
  length p = S depth ->
  walk_child max_depth depth p v
  = filter (fun q => (length q <= Nat.max (S depth) (Z.to_nat max_depth))%nat)
           (p :: preorder p v).
Proof.
  intros Hv Hp. unfold walk_child.
  rewrite filter_cons_True by lia. f_equal.
  destruct (Extract.descend max_depth depth) eqn:Hdescend.
  - apply descend_true in Hdescend.
    rewrite (Hv max_depth (S depth) p Hp).
    apply list_filter_iff. intros q. lia.
  - apply descend_false in Hdescend. symmetry. apply filter_none.
    intros q Hq%preorder_longer. lia.
Qed.

Lemma walk_filter (d : Document) : walk_is_filter d.
Proof.
  induction d as [items IH|elems IH|s] using Document_ind;
    intros max_depth depth prefix Hprefix.
  - rewrite walk_Mapping, preorder_Mapping.
    induction IH as [|[k v] rest Hv _ IHrest]; [reflexivity|].
    cbn [walk_items preorder_items].
    rewrite filter_app, <- IHrest. f_equal.
    apply walk_child_filter; [exact Hv|].
    rewrite length_app. simpl. lia.
  - rewrite walk_Sequence, preorder_Sequence. generalize 0%nat.
    induction IH as [|v rest Hv _ IHrest]; intros i; [reflexivity|].
    cbn [walk_elems preorder_elems].
    rewrite filter_app, <- IHrest. f_equal.
    apply walk_child_filter; [exact Hv|].
    rewrite length_app. simpl. lia.
  - reflexivity.
Qed.

Lemma unique_keys_Mapping (items : list (string * Document)) :
  unique_keys (Mapping items)
  <-> NoDup (fst <$> items) /\ Forall (fun kv => unique_keys kv.2) items.
Proof.
  simpl. apply and_iff_compat_l.
  induction items as [|[k v] rest IH]; simpl.
  - split; [constructor|trivial].
  - rewrite IH, Forall_cons. reflexivity.
Qed.

Lemma unique_keys_Sequence (elems : list Document) :
  unique_keys (Sequence elems) <-> Forall unique_keys elems.
Proof.
  simpl. induction elems as [|v rest IH]; simpl.
  - split; [constructor|trivial].
  - rewrite IH, Forall_cons. reflexivity.
Qed.

(** The shape of the paths below [prefix]. *)
Lemma preorder_extends (d : Document) :
  forall (prefix q : path), q ∈ preorder prefix d -> exists t, q = prefix ++ t.
Proof.
  induction d as [items IH|elems IH|s] using Document_ind; intros prefix q.
  - rewrite preorder_Mapping.
    induction IH as [|[k v] rest Hv _ IHrest]; simpl; [now rewrite elem_of_nil|].
    rewrite elem_of_cons, elem_of_app. intros [->|[Hq|Hq]]; [eauto| |eauto].
    apply Hv in Hq as [t ->]. rewrite <- app_assoc. eauto.
  - rewrite preorder_Sequence. generalize 0%nat.
    induction IH as [|v rest Hv _ IHrest]; intros i; simpl; [now rewrite elem_of_nil|].
    rewrite elem_of_cons, elem_of_app. intros [->|[Hq|Hq]]; [eauto| |eauto].
    apply Hv in Hq as [t ->]. rewrite <- app_assoc. eauto.
  - simpl. now rewrite elem_of_nil.
Qed.

Lemma preorder_items_shape (prefix q : path) (items : list (string * Document)) :
  q ∈ preorder_items prefix items ->
  exists k t, q = prefix ++ Key k :: t /\ k ∈ fst <$> items.
Proof.
  induction items as [|[k v] rest IH]; simpl; [now rewrite elem_of_nil|].
  rewrite elem_of_cons, elem_of_app. intros [->|[Hq|Hq]].
  - exists k, []. split; [reflexivity|left].
  - apply preorder_extends in Hq as [t ->]. rewrite <- app_assoc.
    exists k, t. split; [reflexivity|left].
  - destruct (IH Hq) as (k' & t & -> & Hk'). exists k', t.
    split; [reflexivity|now right].
Qed.

Lemma preorder_elems_shape (prefix q : path) (elems : list Document) (i : nat) :
  q ∈ preorder_elems prefix i elems ->
  exists j t, q = prefix ++ Index j :: t /\ (i <= j)%nat.
Proof.
  revert i. induction elems as [|v rest IH]; intros i; simpl;
    [now rewrite elem_of_nil|].
  rewrite elem_of_cons, elem_of_app. intros [->|[Hq|Hq]].
  - exists i, []. split; [reflexivity|lia].
  - apply preorder_extends in Hq as [t ->]. rewrite <- app_assoc.
    exists i, t. split; [reflexivity|lia].
  - destruct (IH (S i) Hq) as (j & t & -> & Hj). exists j, t.
    split; [reflexivity|lia].
Qed.

Lemma child_paths_NoDup (p : path) (v : Document) :
  NoDup (preorder p v) -> NoDup (p :: preorder p v).
Proof.
  intros Hv. apply NoDup_cons. split; [|exact Hv].
  intros Hp%preorder_longer. lia.
Qed.

Lemma child_paths_shape (p q : path) (v : Document) :
  q ∈ p :: preorder p v -> exists t, q = p ++ t.
Proof.
  rewrite elem_of_cons. intros [->|Hq].
  - exists []. now rewrite app_nil_r.
  - now apply preorder_extends in Hq.
Qed.

(** No node is listed twice. *)
Lemma preorder_NoDup (d : Document) :
  unique_keys d -> forall prefix, NoDup (preorder prefix d).
Proof.
  induction d as [items IH|elems IH|s] using Document_ind; intros Hd prefix.
  - rewrite preorder_Mapping. apply unique_keys_Mapping in Hd as [Hkeys Hitems].
    induction IH as [|[k v] rest Hv _ IHrest]; [constructor|].
    cbn [preorder_items]. simpl in Hkeys. apply NoDup_cons in Hkeys as [Hk Hrest].
    apply Forall_cons in Hitems as [Huv Hitems].
    apply NoDup_app. split; [|split].
    + apply child_paths_NoDup, Hv, Huv.
    + intros q Hq%child_paths_shape Hq'%preorder_items_shape.
      destruct Hq as [t ->]. destruct Hq' as (k' & t' & Heq & Hk').
      rewrite <- app_assoc in Heq. apply app_inv_head in Heq.
      simpl in Heq. injection Heq as <- _. contradiction.
    + now apply IHrest.
  - rewrite preorder_Sequence. apply unique_keys_Sequence in Hd.
    generalize 0%nat.
    induction IH as [|v rest Hv _ IHrest]; intros i; [constructor|].
    cbn [preorder_elems]. apply Forall_cons in Hd as [Huv Hd].
    apply NoDup_app. split; [|split].
    + apply child_paths_NoDup, Hv, Huv.
    + intros q Hq%child_paths_shape Hq'%preorder_elems_shape.
      destruct Hq as [t ->]. destruct Hq' as (j & t' & Heq & Hj).
      rewrite <- app_assoc in Heq. apply app_inv_head in Heq.
      simpl in Heq. injection Heq as <- _. lia.
    + now apply IHrest.
  - constructor.
Qed.

Lemma assoc_Some_key (k : string) (items : list (string * Document)) (v : Document) :
  assoc k items = Some v -> k ∈ fst <$> items.
Proof.
  induction items as [|[k' v'] rest IH]; simpl; [discriminate|].
  destruct (String.eqb_spec k k') as [->|Hne]; [left|].
  intros H. right. now apply IH.
Qed.

Lemma child_paths_elem (p q : path) (v : Document) :
  covers v ->
  q ∈ p :: preorder p v <-> exists t, q = p ++ t /\ is_Some (resolve v t).
Proof.
  intros Hv. rewrite elem_of_cons, (Hv p q). split.
  - intros [->|(t & -> & _ & Ht)]; [|eauto].
    exists []. rewrite app_nil_r. simpl. eauto.
  - intros ([|s t] & -> & Ht); [left; now rewrite app_nil_r|].
    right. exists (s :: t). repeat split; [discriminate|exact Ht].
Qed.

Lemma preorder_items_elem (items : list (string * Document)) :
  NoDup (fst <$> items) ->
  Forall (fun kv => covers kv.2) items ->
  forall (prefix q : path),
    q ∈ preorder_items prefix items
    <-> exists k t v, q = prefix ++ Key k :: t /\ assoc k items = Some v
                      /\ is_Some (resolve v t).
Proof.
  intros Hkeys Hitems prefix q.
  induction Hitems as [|[k0 v0] rest Hv0 _ IH]; simpl.
  - rewrite elem_of_nil. split; [tauto|]. intros (k & t & v & _ & H & _). discriminate.
  - simpl in Hkeys. apply NoDup_cons in Hkeys as [Hk0 Hrest]. specialize (IH Hrest).
    rewrite app_comm_cons, elem_of_app, (child_paths_elem _ q v0 Hv0), IH.
    split.
    + intros [(t & -> & Ht)|(k & t & v & -> & Hk & Ht)].
      * exists k0, t, v0. rewrite <- app_assoc, String.eqb_refl. eauto.
      * exists k, t, v. destruct (String.eqb_spec k k0) as [->|Hne]; [|eauto].
        apply assoc_Some_key in Hk. contradiction.
    + intros (k & t & v & -> & Hk & Ht).
      destruct (String.eqb_spec k k0) as [->|Hne].
      * left. injection Hk as <-. exists t. rewrite <- app_assoc. eauto.
      * right. eauto 10.
Qed.

Lemma preorder_elems_elem (elems : list Document) :
  Forall covers elems ->
  forall (i : nat) (prefix q : path),
    q ∈ preorder_elems prefix i elems
    <-> exists j t v, q = prefix ++ Index (i + j) :: t /\ elems !! j = Some v
                      /\ is_Some (resolve v t).
Proof.
  intros Helems. induction Helems as [|v0 rest Hv0 _ IH]; intros i prefix q; simpl.
  - rewrite elem_of_nil. split; [tauto|]. intros (j & t & v & _ & H & _). discriminate.
  - rewrite app_comm_cons, elem_of_app, (child_paths_elem _ q v0 Hv0), (IH (S i)).
    split.
    + intros [(t & -> & Ht)|(j & t & v & -> & Hj & Ht)].
      * exists 0%nat, t, v0. rewrite <- app_assoc, Nat.add_0_r. eauto.
      * exists (S j), t, v. rewrite Nat.add_succ_r. eauto.
    + intros ([|j] & t & v & -> & Hj & Ht).
      * left. injection Hj as <-. exists t. rewrite <- app_assoc, Nat.add_0_r. eauto.
      * right. exists j, t, v. rewrite Nat.add_succ_r. eauto.
Qed.

Lemma preorder_covers (d : Document) : unique_keys d -> covers d.
Proof.
  induction d as [items IH|elems IH|s] using Document_ind; intros Hd prefix q.
  - apply unique_keys_Mapping in Hd as [Hkeys Hitems].
    rewrite preorder_Mapping, preorder_items_elem; [|exact Hkeys|].
    + split.
      * intros (k & t & v & -> & Hk & Ht). exists (Key k :: t).
        simpl. rewrite Hk. repeat split; [discriminate|exact Ht].
      * intros ([|[k|i] t] & -> & Hne & Ht); simpl in Ht;
          [congruence| |destruct Ht; discriminate].
        destruct (assoc k items) as [v|] eqn:Hk; [|destruct Ht; discriminate].
        eauto 10.
    + rewrite Forall_forall in *. eauto.
  - apply unique_keys_Sequence in Hd.
    rewrite preorder_Sequence, preorder_elems_elem.
    + split.
      * intros (j & t & v & -> & Hj & Ht). exists (Index j :: t).
        simpl. rewrite Hj. repeat split; [discriminate|exact Ht].
      * intros ([|[k|i] t] & -> & Hne & Ht); simpl in Ht;
          [congruence|destruct Ht; discriminate|].
        destruct (elems !! i) as [v|] eqn:Hi; [|destruct Ht; discriminate].
        eauto 10.
    + rewrite Forall_forall in *. eauto.
  - simpl. rewrite elem_of_nil. split; [tauto|].
    intros ([|[k|i] t] & _ & Hne & Ht); simpl in Ht;
      [congruence|destruct Ht; discriminate..].
Qed.

Lemma walk_root (d : Document) (max_depth : Z) :
  Extract.walk max_depth 0%nat [] d = filter (within max_depth) (preorder [] d).
Proof.
  rewrite (walk_filter d max_depth 0%nat []) by reflexivity.
  apply list_filter_iff. intros q. reflexivity.
Qed.

Lemma walk_non_empty (d : Document) (max_depth : Z) :
  non_empty d -> Extract.walk max_depth 0%nat [] d <> [].
Proof.
  unfold non_empty.
  destruct d as [[|[k v] rest]|[|v rest]|s]; simpl; try lia; discriminate.
Qed.

(** The spec's example: with [A.json = {"x": {"y": 1}}], a depth limit of 1
    gives [x] and not [x.y], a limit of 2 gives both; a limit of 0 still
    gives the top level. *)
Example get_available_paths_A_1 :
  Extract.get_available_paths doc_A 1 = Ok ["x"].
Proof. reflexivity. Qed.

Example get_available_paths_A_2 :
  Extract.get_available_paths doc_A 2 = Ok ["x"; "x.y"].
Proof. reflexivity. Qed.

Example get_available_paths_A_0 :
  Extract.get_available_paths doc_A 0 = Ok ["x"].
Proof. reflexivity. Qed.

(** C3: for every Document (its mapping keys unique, as the data model
    has them) and every [max_depth >= 0], the enumeration succeeds and
    returns no path whose nesting level exceeds [max_depth]; it returns at
    least one path when the Document is non-empty; and it returns the paths
    in traversal order (the order of [preorder]: insertion order in
    mappings, index order in sequences), one path for every node within
    the bound and no path twice.  The strings returned are these paths
    rendered, in the same order. *)
Theorem enumerate_paths_bounded_ordered (d : Document) (max_depth : Z) :
  0 <= max_depth ->
  unique_keys d ->
  exists paths,
    Extract.enumerate_paths d max_depth = Ok paths /\
    Extract.get_available_paths d max_depth = Ok (map render_path paths) /\
    (forall p, p ∈ paths -> Z.of_nat (nesting_level p) <= max_depth) /\
    (non_empty d -> paths <> []) /\
    paths = filter (within max_depth) (preorder [] d) /\
    NoDup paths /\
    (forall p, p ∈ paths
               <-> p <> [] /\ is_Some (resolve d p) /\ within max_depth p).
Proof.
  intros Hdepth Hd. exists (Extract.walk max_depth 0%nat [] d).
  assert (Henum : Extract.enumerate_paths d max_depth
                  = Ok (Extract.walk max_depth 0%nat [] d)).
  { unfold Extract.enumerate_paths.
    destruct (Z.ltb_spec max_depth 0); [lia|reflexivity]. }
  split; [exact Henum|].
  split; [unfold Extract.get_available_paths; now rewrite Henum|].
  split; [|split; [apply walk_non_empty|]].
  - intros p. rewrite walk_root, list_elem_of_filter.
    unfold within, max_segments, nesting_level. lia.
  - split; [apply walk_root|]. rewrite walk_root. split.
    + apply NoDup_filter, preorder_NoDup, Hd.
    + intros p. rewrite list_elem_of_filter, (preorder_covers d Hd [] p). split.
      * intros (Hp & t & -> & Hne & Ht). auto.
      * intros (Hne & Ht & Hp). eauto.
Qed.

Lemma enumerate_paths_bounded_ordered_witness :
  exists paths,
    Extract.enumerate_paths doc_A 1 = Ok paths /\
    Extract.get_available_paths doc_A 1 = Ok (map render_path paths) /\
    (forall p, p ∈ paths -> Z.of_nat (nesting_level p) <= 1) /\
    (non_empty doc_A -> paths <> []) /\
    paths = filter (within 1) (preorder [] doc_A) /\
    NoDup paths /\
    (forall p, p ∈ paths <-> p <> [] /\ is_Some (resolve doc_A p) /\ within 1 p).
Proof.
  apply (enumerate_paths_bounded_ordered doc_A 1).
  - lia.
  - simpl. repeat split; apply NoDup_singleton.
Defined.

(** ** The summary *)

Section Summary.
Context (K : Extract.Constants).

Lemma omap_lookup_subjects (store : gmap string Document) (l : list string) :
  (forall subject_id, subject_id ∈ l -> is_Some (store !! subject_id)) ->
  Extract.row_subject
    <$> omap (fun subject_id =>
                Extract.summary_row K subject_id <$> store !! subject_id) l
  = l.
Proof.
  induction l as [|x l IH]; intros Hl; [reflexivity|].
  destruct (Hl x) as [doc Hdoc]; [left|].
  simpl. rewrite Hdoc. simpl. f_equal. apply IH.
  intros y Hy. apply Hl. now right.
Qed.

Lemma summarize_profiles_subjects (store : gmap string Document) :
  Extract.row_subject <$> Extract.summarize_profiles K store
  = Loader.list_subjects store.
Proof.
  unfold Extract.summarize_profiles. apply omap_lookup_subjects.
  apply list_subjects_lookup.
Qed.

Lemma summarize_profiles_row (store : gmap string Document)
    (subject_id : string) (doc : Document) :
  store !! subject_id = Some doc ->
  Extract.summary_row K subject_id doc ∈ Extract.summarize_profiles K store.
Proof.
  intros Hdoc. unfold Extract.summarize_profiles.
  apply list_elem_of_omap. exists subject_id. split.
  - apply list_subjects_elem_of, elem_of_dom. eauto.
  - now rewrite Hdoc.
Qed.

(** C7: two calls of [summarize_profiles] on the same store give the same
    rows in the same order; a call gives one row per subject, in the sorted
    listing order of the store, and leaves no subject out, the row of a
    subject none of whose probed fields is present included. *)
Theorem summarize_profiles_rows (store : gmap string Document) :
  let first_call := Extract.summarize_profiles K store in
  let second_call := Extract.summarize_profiles K store in
  first_call = second_call /\
  Extract.row_subject <$> first_call = Loader.list_subjects store /\
  length first_call = size store /\
  (forall subject_id doc,
      store !! subject_id = Some doc ->
      Extract.summary_row K subject_id doc ∈ first_call) /\
  (forall subject_id doc,
      store !! subject_id = Some doc ->
      (forall column keys, (column, keys) ∈ Extract.CANDIDATE_FIELDS K ->
                           Extract.field_present doc keys = false) ->
      {| Extract.row_subject := subject_id;
         Extract.row_fields :=
           map (fun field => (field.1, false)) (Extract.CANDIDATE_FIELDS K) |}
      ∈ first_call).
Proof.
  cbv zeta. split; [reflexivity|].
  split; [apply summarize_profiles_subjects|].
  split; [|split].
  - rewrite <- list_subjects_length, <- summarize_profiles_subjects.
    now rewrite length_fmap.
  - apply summarize_profiles_row.
  - intros subject_id doc Hdoc Habsent.
    pose proof (summarize_profiles_row store subject_id doc Hdoc) as Hrow.
    unfold Extract.summary_row in Hrow.
    erewrite map_ext_in; [exact Hrow|].
    intros [column keys] Hin. simpl.
    now rewrite (Habsent column keys) by (now apply list_elem_of_In).
Qed.

(** C8: with [max_depth < 0] the depth-bounded operations do not run: each
    returns an InvalidArgument error that carries a message. *)
Theorem negative_depth_invalid_argument (doc : Document) (max_depth : Z) :
  max_depth < 0 ->
  (exists msg, Extract.inspect_profile K doc max_depth = Raise (InvalidArgument msg)
               /\ msg <> EmptyString) /\
  (exists msg, Extract.enumerate_paths doc max_depth = Raise (InvalidArgument msg)
               /\ msg <> EmptyString) /\
  (exists msg, Extract.get_available_paths doc max_depth = Raise (InvalidArgument msg)
               /\ msg <> EmptyString).
Proof.
  intros Hneg.
  unfold Extract.get_available_paths, Extract.enumerate_paths,
    Extract.inspect_profile.
  destruct (Z.ltb_spec max_depth 0); [|lia].
  repeat split; eexists; (split; [reflexivity|discriminate]).
Qed.

End Summary.

Lemma summarize_profiles_rows_witness :
  let first_call := Extract.summarize_profiles sample_constants sample_store in
  Extract.row_subject <$> first_call = ["A"; "B"] /\
  {| Extract.row_subject := "B";
     Extract.row_fields := [("has_x", true); ("has_x_y", false)] |} ∈ first_call.
Proof.
  cbv zeta.
  destruct (summarize_profiles_rows sample_constants sample_store)
    as (_ & Hsubjects & _ & Hrow & _).
  split.
  - rewrite Hsubjects. vm_compute. reflexivity.
  - apply (Hrow "B" doc_B). vm_compute. reflexivity.
Defined.

Lemma negative_depth_invalid_argument_witness :
  (exists msg, Extract.inspect_profile sample_constants doc_A (-1)
               = Raise (InvalidArgument msg) /\ msg <> EmptyString) /\
  (exists msg, Extract.enumerate_paths doc_A (-1) = Raise (InvalidArgument msg)
               /\ msg <> EmptyString) /\
  (exists msg, Extract.get_available_paths doc_A (-1) = Raise (InvalidArgument msg)
               /\ msg <> EmptyString).
Proof. apply (negative_depth_invalid_argument sample_constants doc_A (-1)). lia. Defined.

Lemma load_profiles_key_set_witness :
  exists store messages,
    Loader.load_profiles sample_fs "profiles" true = Ok (store, messages) /\
    dom store = list_to_set (stems sample_entries) /\
    (forall subject_id,
        subject_id ∈ Loader.list_subjects store <-> subject_id ∈ stems sample_entries) /\
    StronglySorted str_le (Loader.list_subjects store) /\
    NoDup (Loader.list_subjects store).
Proof.
  apply (proj1 (load_profiles_key_set sample_fs "profiles" true) sample_entries).
  - vm_compute. reflexivity.
  - repeat constructor; simpl; eauto.
Defined.

Lemma get_profile_lookup_witness :
  Loader.get_profile sample_store "A" = Ok (Some doc_A) /\
  Loader.get_profile sample_store "ghost" = Ok None.
Proof.
  split.
  - apply (proj1 (get_profile_lookup sample_store "A") doc_A).
    vm_compute. reflexivity.
  - apply (proj1 (proj2 (get_profile_lookup sample_store "ghost"))).
    vm_compute. reflexivity.
Defined.

(** ** The command-line front end *)

Section CliFacts.
Import Cli.
Context (K : Extract.Constants).

Lemma load_profiles_loaded (fs : Loader.FileSystem) (args : Args) :
  Loader.load_profiles fs (directory args) (negb (quiet args))
  = Ok (loaded fs args).
Proof.
  unfold loaded, Loader.load_profiles.
  destruct (fs !! directory args) as [entries|]; [|reflexivity].
  now destruct (Loader.scan entries).
Qed.

Lemma bind_inr {A B : Type} (es : list event) (a : A) (f : A -> prog B) :
  ((es, inr a) : prog A) ≫= f = after es (f a).
Proof.
  unfold mbind, prog_bind, after. now destruct (f a).
Qed.

Lemma bind_inl {A B : Type} (es : list event) (s : stop) (f : A -> prog B) :
  ((es, inl s) : prog A) ≫= f = (es, inl s).
Proof. reflexivity. Qed.

Lemma after_nil {A : Type} (m : prog A) : after [] m = m.
Proof. now destruct m. Qed.

Lemma bind_ret {A B : Type} (a : A) (f : A -> prog B) : mret a ≫= f = f a.
Proof. unfold mret, prog_ret. now rewrite bind_inr, after_nil. Qed.

Lemma after_after {A : Type} (es es' : list event) (m : prog A) :
  after es (after es' m) = after (es ++ es') m.
Proof. unfold after. simpl. now rewrite app_assoc. Qed.

Lemma main_no_profiles (fs : Loader.FileSystem) (args : Args) :
  size (loaded_store fs args) = 0%nat ->
  main K fs args = no_profiles_run fs args.
Proof.
  unfold main, loaded_store, no_profiles_run, load_messages.
  rewrite load_profiles_loaded. destruct (loaded fs args) as [store messages].
  simpl. intros ->. reflexivity.
Qed.

Lemma main_dispatch (fs : Loader.FileSystem) (args : Args) :
  size (loaded_store fs args) <> 0%nat ->
  main K fs args
  = after (load_messages fs args) (dispatch K (loaded_store fs args) args).
Proof.
  unfold main, loaded_store, load_messages.
  rewrite load_profiles_loaded. destruct (loaded fs args) as [store messages].
  cbn [fst snd]. intros Hsize.
  unfold call, emit, mret, prog_ret. rewrite !bind_inr, after_nil.
  destruct (size store) as [|n]; [congruence|].
  cbn [Nat.eqb]. now rewrite bind_inr, after_nil.
Qed.

Lemma for_each_print {A : Type} (l : list A) (f : A -> string) :
  for_each l (fun x => print (f x)) = (printed (f <$> l), inr tt).
Proof.
  induction l as [|x l IH]; [reflexivity|].
  cbn [for_each]. rewrite IH. unfold print, emit. now rewrite bind_inr.
Qed.

Lemma run_list_eq (profiles : gmap string Document) :
  run_list profiles
  = (printed ((nl +:+ "Subjects ("
               +:+ pretty (length (Loader.list_subjects profiles)) +:+ "):")
              :: ((fun s => "  " +:+ s) <$> Loader.list_subjects profiles)),
     inr tt).
Proof.
  unfold run_list. rewrite for_each_print. unfold print, emit.
  now rewrite bind_inr.
Qed.

Lemma run_inspect_absent (profiles : gmap string Document) (args : Args)
    (subject : string) :
  not_None (profiles !! subject) = None ->
  run_inspect K profiles args subject = ([not_found subject], inl (SystemExit 1)).
Proof.
  intros Habsent. unfold run_inspect, Loader.get_profile, call.
  rewrite bind_ret, Habsent. reflexivity.
Qed.

Lemma run_inspect_present (profiles : gmap string Document) (args : Args)
    (subject : string) (profile : Document) :
  not_None (profiles !! subject) = Some profile ->
  run_inspect K profiles args subject
  = after (printed [nl +:+ "Inspecting profile for subject: " +:+ subject])
          (match Extract.inspect_profile K profile (depth args) with
           | Ok lines => (OutlineLine <$> lines, inr tt)
           | Raise e => ([], inl (Uncaught e))
           end).
Proof.
  intros Hpresent. unfold run_inspect, Loader.get_profile, call.
  rewrite bind_ret, Hpresent, bind_ret.
  unfold mret, prog_ret, print, emit. rewrite bind_inr.
  destruct (Extract.inspect_profile K profile (depth args)) as [lines|e].
  - now rewrite bind_inr, after_nil.
  - now rewrite bind_inl.
Qed.

Lemma run_paths_absent (profiles : gmap string Document) (subject : string) :
  not_None (profiles !! subject) = None ->
  run_paths profiles subject = ([not_found subject], inl (SystemExit 1)).
Proof.
  intros Habsent. unfold run_paths, Loader.get_profile, call.
  rewrite bind_ret, Habsent. reflexivity.
Qed.

Lemma run_paths_present (profiles : gmap string Document) (subject : string)
    (profile : Document) :
  not_None (profiles !! subject) = Some profile ->
  exists available,
    Extract.get_available_paths profile 6 = Ok available /\
    run_paths profiles subject = (paths_report subject available, inr tt).
Proof.
  intros Hpresent.
  exists (map render_path (Extract.walk 6 0 [] profile)). split; [reflexivity|].
  unfold run_paths, Loader.get_profile, call.
  rewrite bind_ret, Hpresent, bind_ret.
  change (Extract.get_available_paths profile 6)
    with (Ok (map render_path (Extract.walk 6 0 [] profile))).
  cbv iota. rewrite bind_ret.
  rewrite for_each_print. unfold print, emit, mret, prog_ret. rewrite !bind_inr.
  unfold paths_report, after. cbn [fst snd]. f_equal.
  - now destruct (50 <? _)%nat.
  - now destruct (50 <? _)%nat.
Qed.

Lemma run_summary_eq (profiles : gmap string Document) :
  run_summary K profiles
  = (printed [nl +:+ "Data availability summary:"]
     ++ [Table (Extract.summarize_profiles K profiles)], inr tt).
Proof. reflexivity. Qed.


Lemma run_default_eq (profiles : gmap string Document) (args : Args)
    (first : string) :
  Loader.list_subjects profiles !! 0%nat = Some first ->
  run_default profiles args
  = (default_report (directory args) (Loader.list_subjects profiles) first,
     inr tt).
Proof.
  intros Hfirst. unfold run_default, item. rewrite Hfirst.
  unfold default_report, print, print_no_end, emit, mret, prog_ret.
  rewrite !bind_inr. unfold after. cbn [fst snd].
  destruct (10 <? _)%nat; rewrite bind_inr; reflexivity.
Qed.

(** Without the early exit the indexing would fail: on an empty store the
    default branch ends in an IndexError. *)
Lemma run_default_empty (args : Args) :
  exists msg, outcome (run_default ∅ args) = inl (Uncaught (IndexError msg)).
Proof. eexists. vm_compute. reflexivity. Qed.

Lemma list_subjects_first (profiles : gmap string Document) :
  size profiles <> 0%nat ->
  exists first, Loader.list_subjects profiles !! 0%nat = Some first
                /\ first ∈ dom profiles.
Proof.
  intros Hsize. rewrite <- list_subjects_length in Hsize.
  destruct (Loader.list_subjects profiles) as [|first rest] eqn:Hl;
    [contradiction|].
  exists first. split; [reflexivity|].
  apply list_subjects_elem_of. rewrite Hl. left.
Qed.

Lemma inspect_profile_raises (profile : Document) (max_depth : Z) (e : exn) :
  Extract.inspect_profile K profile max_depth = Raise e ->
  max_depth < 0 /\ exists msg, e = InvalidArgument msg.
Proof.
  unfold Extract.inspect_profile.
  destruct (Z.ltb_spec max_depth 0); [|discriminate].
  intros [= <-]. eauto.
Qed.

Lemma dispatch_winner (profiles : gmap string Document) (args : Args) (f : flag) :
  winner (supplied args) = Some f ->
  dispatch K profiles args = action K profiles args f.
Proof.
  unfold winner, supplied, dispatch, action, precedence.
  destruct (list_subjects args), (truthy (inspect args)), (truthy (paths args)),
    (summary args); cbn; intros [= <-]; reflexivity.
Qed.

Lemma dispatch_default (profiles : gmap string Document) (args : Args) :
  winner (supplied args) = None ->
  dispatch K profiles args = run_default profiles args.
Proof.
  unfold winner, supplied, dispatch, precedence.
  destruct (list_subjects args), (truthy (inspect args)), (truthy (paths args)),
    (summary args); cbn; intros [=]; reflexivity.
Qed.

Lemma dispatch_only (profiles : gmap string Document) (args : Args) (f : flag) :
  winner (supplied args) = Some f ->
  dispatch K profiles (only f args) = action K profiles args f.
Proof.
  unfold winner, supplied, dispatch, action, precedence, only, run_inspect.
  destruct (list_subjects args), (truthy (inspect args)) eqn:Hi,
    (truthy (paths args)) eqn:Hp, (summary args);
    cbn; intros [= <-]; cbn; rewrite ?Hi, ?Hp; reflexivity.
Qed.

End CliFacts.

Section CliClaims.
Import Cli.
Context (K : Extract.Constants).

Lemma exit_code_after (es : list event) (m : prog unit) :
  exit_code (after es m) = exit_code m.
Proof. reflexivity. Qed.

Lemma outcome_after {A : Type} (es : list event) (m : prog A) :
  outcome (after es m) = outcome m.
Proof. reflexivity. Qed.

Lemma written_after {A : Type} (es : list event) (m : prog A) :
  written (after es m) = es ++ written m.
Proof. reflexivity. Qed.

Lemma truthy_Some (o : option string) (subject : string) :
  o = Some subject -> subject <> EmptyString -> truthy o = Some subject.
Proof.
  intros -> Hne. unfold truthy.
  destruct (String.eqb_spec subject EmptyString); [contradiction|reflexivity].
Qed.

Lemma load_messages_no_outline (fs : Loader.FileSystem) (args : Args) :
  Forall (fun e => is_outline e = false) (load_messages fs args).
Proof. unfold load_messages. apply Forall_fmap, Forall_true. reflexivity. Qed.

Lemma not_None_absent (profiles : gmap string Document) (subject : string) :
  profiles !! subject = None -> not_None (profiles !! subject) = None.
Proof. now intros ->. Qed.

Lemma not_None_present (profiles : gmap string Document) (subject : string)
    (profile : Document) :
  profiles !! subject = Some profile ->
  profile <> Leaf JNull ->
  not_None (profiles !! subject) = Some profile.
Proof. intros -> Hne. now destruct profile as [| |[]]. Qed.

Lemma lookup_Some_size (profiles : gmap string Document) (subject : string)
    (profile : Document) :
  profiles !! subject = Some profile -> size profiles <> 0%nat.
Proof.
  intros Hpresent Hzero. apply map_size_empty_iff in Hzero. subst.
  now rewrite lookup_empty in Hpresent.
Qed.

(** C4 (amended): when [--inspect] is given a non-empty identifier that is
    not in the store, and [--list] is not given, the run writes an error
    message to stderr as its last output, exits with code 1 and prints no
    outline. *)
Theorem inspect_absent_subject (fs : Loader.FileSystem) (args : Args)
    (subject : string) :
  inspect args = Some subject ->
  subject <> EmptyString ->
  list_subjects args = false ->
  loaded_store fs args !! subject = None ->
  let run := main K fs args in
  exit_code run = Some 1 /\
  (exists text, written run = load_messages fs args ++ [Stderr text]) /\
  Forall (fun e => is_outline e = false) (written run).
Proof.
  intros Hinspect Hne Hlist Habsent. cbv zeta.
  assert (Hshape : exists text,
             main K fs args
             = (load_messages fs args ++ [Stderr text], inl (SystemExit 1))).
  { destruct (decide (size (loaded_store fs args) = 0%nat)) as [Hzero|Hsome].
    - rewrite (main_no_profiles K fs args Hzero). unfold no_profiles_run. eauto.
    - rewrite (main_dispatch K fs args Hsome). unfold dispatch.
      rewrite Hlist, (truthy_Some _ _ Hinspect Hne).
      rewrite (run_inspect_absent K _ args subject (not_None_absent _ _ Habsent)).
      unfold after, not_found. cbn [fst snd]. eauto. }
  destruct Hshape as [text ->]. cbn [written exit_code outcome fst snd].
  split; [reflexivity|]. split; [eauto|].
  apply Forall_app. split; [apply load_messages_no_outline|].
  repeat constructor.
Qed.

(** C5 (amended): when [--paths] is given a non-empty identifier, and
    neither [--list] nor a non-empty [--inspect] is given: for a subject of
    the store whose Document is not the JSON null, the run enumerates its
    paths with depth limit 6, prints a header, then the first 50 paths at
    most, then the count of the remaining paths if there are more than 50,
    and completes; for an absent subject it writes an error to stderr and
    exits with code 1. *)
Theorem paths_first_fifty (fs : Loader.FileSystem) (args : Args)
    (subject : string) :
  paths args = Some subject ->
  subject <> EmptyString ->
  list_subjects args = false ->
  truthy (inspect args) = None ->
  let store := loaded_store fs args in
  let run := main K fs args in
  (forall profile,
      store !! subject = Some profile ->
      profile <> Leaf JNull ->
      exists available,
        Extract.get_available_paths profile 6 = Ok available /\
        run = (load_messages fs args ++ paths_report subject available, inr tt)) /\
  (store !! subject = None ->
   exit_code run = Some 1 /\
   exists text, written run = load_messages fs args ++ [Stderr text]).
Proof.
  intros Hpaths Hne Hlist Hinspect. cbv zeta. split.
  - intros profile Hpresent Hnot_null.
    pose proof (lookup_Some_size _ _ _ Hpresent) as Hsome.
    destruct (run_paths_present (loaded_store fs args) subject profile
                (not_None_present _ _ _ Hpresent Hnot_null))
      as (available & Havailable & Hrun).
    exists available. split; [exact Havailable|].
    rewrite (main_dispatch K fs args Hsome). unfold dispatch.
    now rewrite Hlist, Hinspect, (truthy_Some _ _ Hpaths Hne), Hrun.
  - intros Habsent.
    destruct (decide (size (loaded_store fs args) = 0%nat)) as [Hzero|Hsome].
    + rewrite (main_no_profiles K fs args Hzero). unfold no_profiles_run.
      split; [reflexivity|]. cbn [written fst]. eauto.
    + rewrite (main_dispatch K fs args Hsome). unfold dispatch.
      rewrite Hlist, Hinspect, (truthy_Some _ _ Hpaths Hne).
      rewrite (run_paths_absent _ subject (not_None_absent _ _ Habsent)).
      split; [reflexivity|]. unfold after, not_found. cbn [written fst]. eauto.
Qed.

Lemma loaded_only (fs : Loader.FileSystem) (args : Args) (f : flag) :
  loaded fs (only f args) = loaded fs args.
Proof. reflexivity. Qed.

Lemma count_flags_winner (sup : flag -> bool) :
  (1 < count_flags sup)%nat -> exists f, winner sup = Some f.
Proof.
  unfold count_flags, winner.
  destruct (filter _ precedence) as [|f rest]; simpl; [lia|eauto].
Qed.

(** C9 (amended): in every invocation that loads at least one profile and
    in which more than one of [--list], [--inspect], [--paths], [--summary]
    is supplied (for [--inspect] and [--paths]: with a non-empty value),
    the run after the loader's messages is the run of one action, the
    first supplied one in the order list, inspect, paths, summary; the run
    is the same as when only that flag is given. *)
Theorem action_precedence (fs : Loader.FileSystem) (args : Args) :
  size (loaded_store fs args) <> 0%nat ->
  (1 < count_flags (supplied args))%nat ->
  exists f,
    winner (supplied args) = Some f /\
    main K fs args
    = after (load_messages fs args) (action K (loaded_store fs args) args f) /\
    main K fs args = main K fs (only f args).
Proof.
  intros Hsome Hcount.
  destruct (count_flags_winner _ Hcount) as [f Hf]. exists f.
  split; [exact Hf|].
  rewrite (main_dispatch K fs args Hsome), (dispatch_winner K _ args f Hf).
  split; [reflexivity|].
  rewrite (main_dispatch K fs (only f args)) by exact Hsome.
  unfold loaded_store, load_messages. rewrite loaded_only.
  now rewrite (dispatch_only K _ args f Hf).
Qed.

Lemma dispatch_uncaught (profiles : gmap string Document) (args : Args) (e : exn) :
  size profiles <> 0%nat ->
  outcome (dispatch K profiles args) = inl (Uncaught e) ->
  exists msg, e = InvalidArgument msg.
Proof.
  intros Hsize. unfold dispatch.
  destruct (list_subjects args); [now rewrite run_list_eq|].
  destruct (truthy (inspect args)) as [subject|].
  { destruct (not_None (profiles !! subject)) as [profile|] eqn:Hprofile.
    - rewrite (run_inspect_present K profiles args subject profile Hprofile).
      rewrite outcome_after.
      destruct (Extract.inspect_profile K profile (depth args)) as [lines|e'] eqn:Hcall;
        [discriminate|].
      intros [= <-]. now apply inspect_profile_raises in Hcall as [_ Hmsg].
    - now rewrite (run_inspect_absent K profiles args subject Hprofile). }
  destruct (truthy (paths args)) as [subject|].
  { destruct (not_None (profiles !! subject)) as [profile|] eqn:Hprofile.
    - now destruct (run_paths_present profiles subject profile Hprofile)
        as (available & _ & ->).
    - now rewrite (run_paths_absent profiles subject Hprofile). }
  destruct (summary args); [now rewrite run_summary_eq|].
  destruct (list_subjects_first profiles Hsize) as (first & Hfirst & _).
  now rewrite (run_default_eq profiles args first Hfirst).
Qed.

(** C10: an invocation that loads no profile ends with exit code 1 before
    the dispatch; on the no-flag default branch the listing therefore has
    an item at position 0, the usage line is written with it and the run
    completes; no invocation ends in an IndexError. *)
Theorem default_branch_index_safe (fs : Loader.FileSystem) (args : Args) :
  let store := loaded_store fs args in
  let run := main K fs args in
  (size store = 0%nat -> run = no_profiles_run fs args /\ exit_code run = Some 1) /\
  (size store <> 0%nat ->
   winner (supplied args) = None ->
   exists first,
     Loader.list_subjects store !! 0%nat = Some first /\
     run = (load_messages fs args
            ++ default_report (directory args) (Loader.list_subjects store) first,
            inr tt)) /\
  (forall msg, outcome run <> inl (Uncaught (IndexError msg))).
Proof.
  cbv zeta. split; [|split].
  - intros Hzero. now rewrite (main_no_profiles K fs args Hzero).
  - intros Hsome Hnone.
    destruct (list_subjects_first _ Hsome) as (first & Hfirst & _).
    exists first. split; [exact Hfirst|].
    rewrite (main_dispatch K fs args Hsome), (dispatch_default K _ args Hnone).
    now rewrite (run_default_eq _ args first Hfirst).
  - intros msg.
    destruct (decide (size (loaded_store fs args) = 0%nat)) as [Hzero|Hsome].
    + now rewrite (main_no_profiles K fs args Hzero).
    + rewrite (main_dispatch K fs args Hsome), outcome_after.
      intros Hraise. apply dispatch_uncaught in Hraise as [msg' [=]]. exact Hsome.
Qed.

End CliClaims.

(** ** The claims on sample invocations *)

(** C4 as first stated fails: [--list --inspect ghost] lists the subjects,
    and [--inspect ''] prints the default overview; neither writes to
    stderr and both exit with code 0. *)
Lemma inspect_absent_subject_counterexample :
  (Cli.inspect args_list_inspect_ghost = Some "ghost" /\
   loaded_store sample_fs args_list_inspect_ghost !! "ghost" = None /\
   filter (fun e => Cli.is_stderr e = true)
          (Cli.written (Cli.main sample_constants sample_fs args_list_inspect_ghost))
   = [] /\
   Cli.outcome (Cli.main sample_constants sample_fs args_list_inspect_ghost)
   = inr tt) /\
  (Cli.inspect args_inspect_empty = Some EmptyString /\
   loaded_store sample_fs args_inspect_empty !! EmptyString = None /\
   Cli.main sample_constants sample_fs args_inspect_empty
   = (default_report "profiles" ["A"; "B"] "A", inr tt)).
Proof. vm_compute. repeat split; reflexivity. Qed.

Lemma inspect_absent_subject_witness :
  let run := Cli.main sample_constants sample_fs args_inspect_ghost in
  Cli.exit_code run = Some 1 /\
  (exists text,
      Cli.written run = load_messages sample_fs args_inspect_ghost ++ [Cli.Stderr text]) /\
  Forall (fun e => Cli.is_outline e = false) (Cli.written run).
Proof.
  apply (inspect_absent_subject sample_constants sample_fs args_inspect_ghost "ghost").
  - reflexivity.
  - discriminate.
  - reflexivity.
  - vm_compute. reflexivity.
Defined.

(** C5 as first stated fails: [--list --paths ghost] lists the subjects and
    [--paths ''] prints the default overview; both exit with code 0 although
    the subject asked for is absent.  And [--paths N] reports N as not
    found although it is in the store, when its Document is the JSON
    null. *)
Lemma paths_first_fifty_counterexample :
  (Cli.paths args_list_paths_ghost = Some "ghost" /\
   loaded_store sample_fs args_list_paths_ghost !! "ghost" = None /\
   Cli.main sample_constants sample_fs args_list_paths_ghost
   = (printed [nl +:+ "Subjects (2):"; "  A"; "  B"], inr tt)) /\
  (Cli.paths args_paths_empty = Some EmptyString /\
   loaded_store sample_fs args_paths_empty !! EmptyString = None /\
   Cli.main sample_constants sample_fs args_paths_empty
   = (default_report "profiles" ["A"; "B"] "A", inr tt)) /\
  (Cli.paths args_paths_N = Some "N" /\
   loaded_store null_fs args_paths_N !! "N" = Some (Leaf JNull) /\
   Cli.main sample_constants null_fs args_paths_N
   = ([not_found "N"], inl (Cli.SystemExit 1))).
Proof. vm_compute. repeat split; reflexivity. Qed.

Lemma paths_first_fifty_witness :
  let store := loaded_store sample_fs args_paths_A in
  let run := Cli.main sample_constants sample_fs args_paths_A in
  (forall profile,
      store !! "A" = Some profile ->
      profile <> Leaf JNull ->
      exists available,
        Extract.get_available_paths profile 6 = Ok available /\
        run = (load_messages sample_fs args_paths_A ++ paths_report "A" available,
               inr tt)) /\
  (store !! "A" = None ->
   Cli.exit_code run = Some 1 /\
   exists text,
     Cli.written run = load_messages sample_fs args_paths_A ++ [Cli.Stderr text]).
Proof.
  apply (paths_first_fifty sample_constants sample_fs args_paths_A "A").
  - reflexivity.
  - discriminate.
  - reflexivity.
  - reflexivity.
Defined.

(** C9 as first stated fails: [--list --summary] on a directory without
    profiles runs no action at all; and with [--inspect '' --paths A] the
    paths action runs although [--inspect] comes first in the order. *)
Lemma action_precedence_counterexample :
  (given args_nowhere_list_summary FList = true /\
   given args_nowhere_list_summary FSummary = true /\
   Cli.main sample_constants sample_fs args_nowhere_list_summary
   = ([Cli.Stderr ("No profiles loaded." +:+ nl)], inl (Cli.SystemExit 1))) /\
  (given args_inspect_empty_paths_A FInspect = true /\
   given args_inspect_empty_paths_A FPaths = true /\
   winner (given args_inspect_empty_paths_A) = Some FInspect /\
   Cli.main sample_constants sample_fs args_inspect_empty_paths_A
   = (paths_report "A" ["x"; "x.y"], inr tt)).
Proof. vm_compute. repeat split; reflexivity. Qed.

Lemma action_precedence_witness :
  exists f,
    winner (supplied args_inspect_A_paths_B_summary) = Some f /\
    Cli.main sample_constants sample_fs args_inspect_A_paths_B_summary
    = after (load_messages sample_fs args_inspect_A_paths_B_summary)
            (action sample_constants
               (loaded_store sample_fs args_inspect_A_paths_B_summary)
               args_inspect_A_paths_B_summary f) /\
    Cli.main sample_constants sample_fs args_inspect_A_paths_B_summary
    = Cli.main sample_constants sample_fs (only f args_inspect_A_paths_B_summary).
Proof.
  apply (action_precedence sample_constants sample_fs args_inspect_A_paths_B_summary).
  - vm_compute. discriminate.
  - vm_compute. lia.
Defined.

Lemma default_branch_index_safe_witness :
  exists first,
    Loader.list_subjects (loaded_store sample_fs args_no_flag) !! 0%nat = Some first /\
    Cli.main sample_constants sample_fs args_no_flag
    = (load_messages sample_fs args_no_flag
       ++ default_report (Cli.directory args_no_flag)
            (Loader.list_subjects (loaded_store sample_fs args_no_flag)) first,
       inr tt).
Proof.
  apply (proj1 (proj2 (default_branch_index_safe sample_constants sample_fs
                         args_no_flag))).
  - vm_compute. discriminate.
  - reflexivity.
Defined.

(** ** Two corners of the dispatch *)

Section Corners.
Import Cli.
Context (K : Extract.Constants).

(** X1: an [--inspect] or a [--paths] whose value is the empty string is
    treated as not given: the run is the run of the invocation without
    the flag. *)
Theorem empty_value_ignored (fs : Loader.FileSystem) (args : Args) :
  (inspect args = Some EmptyString ->
   main K fs args = main K fs (without_inspect args)) /\
  (paths args = Some EmptyString ->
   main K fs args = main K fs (without_paths args)).
Proof.
  split; intros Hempty; unfold main, without_inspect, without_paths;
    cbn [directory quiet list_subjects inspect paths summary depth];
    rewrite Hempty; reflexivity.
Qed.

(** X2: a subject whose Document is the JSON null is reported as not
    found: when [--inspect] selects it, the run writes the error to stderr
    and exits with code 1. *)
Theorem null_document_not_found (fs : Loader.FileSystem) (args : Args)
    (subject : string) :
  list_subjects args = false ->
  truthy (inspect args) = Some subject ->
  loaded_store fs args !! subject = Some (Leaf JNull) ->
  main K fs args
  = (load_messages fs args ++ [not_found subject], inl (SystemExit 1)).
Proof.
  intros Hlist Hinspect Hnull.
  rewrite (main_dispatch K fs args (lookup_Some_size _ _ _ Hnull)).
  unfold dispatch. rewrite Hlist, Hinspect.
  rewrite (run_inspect_absent K _ args subject); [reflexivity|].
  now rewrite Hnull.
Qed.

End Corners.

Lemma empty_value_ignored_witness :
  Cli.main sample_constants sample_fs args_inspect_empty
  = Cli.main sample_constants sample_fs (without_inspect args_inspect_empty)
  /\ Cli.main sample_constants sample_fs args_paths_empty
     = Cli.main sample_constants sample_fs (without_paths args_paths_empty).
Proof.
  split.
  - apply (proj1 (empty_value_ignored sample_constants sample_fs args_inspect_empty)).
    reflexivity.
  - apply (proj2 (empty_value_ignored sample_constants sample_fs args_paths_empty)).
    reflexivity.
Defined.

Lemma null_document_not_found_witness :
  Cli.main sample_constants null_fs args_inspect_N
  = (load_messages null_fs args_inspect_N ++ [not_found "N"],
     inl (Cli.SystemExit 1)).
Proof.
  apply (null_document_not_found sample_constants null_fs args_inspect_N "N").
  - reflexivity.
  - reflexivity.
  - vm_compute. reflexivity.
Defined.

(** ** More of [main]: options, output streams and the branches *)

Section MainFacts.
Import Cli.
Context (K : Extract.Constants).

Lemma loaded_store_of (fs : Loader.FileSystem) (args : Args) :
  loaded_store fs args = store_of fs (directory args).
Proof.
  unfold loaded_store, loaded, Loader.load_profiles, store_of.
  destruct (fs !! directory args) as [entries|]; [|reflexivity].
  now destruct (Loader.scan entries).
Qed.

Lemma load_messages_quiet (fs : Loader.FileSystem) (args : Args) :
  quiet args = true -> load_messages fs args = [].
Proof.
  intros Hquiet. unfold load_messages, loaded, Loader.load_profiles.
  rewrite Hquiet. cbn [negb].
  destruct (fs !! directory args) as [entries|]; [|reflexivity].
  now destruct (Loader.scan entries).
Qed.

Lemma printed_to_stdout (lines : list string) :
  Forall (fun e => to_stdout e = true) (printed lines).
Proof. unfold printed. apply Forall_fmap, Forall_true. reflexivity. Qed.

Lemma paths_report_to_stdout (subject : string) (available : list string) :
  Forall (fun e => to_stdout e = true) (paths_report subject available).
Proof.
  unfold paths_report. repeat (apply Forall_app; split);
    try apply printed_to_stdout.
  destruct (50 <? _)%nat; [apply printed_to_stdout|constructor].
Qed.

Lemma default_report_to_stdout (dir : string) (subjects : list string)
    (first : string) :
  Forall (fun e => to_stdout e = true) (default_report dir subjects first).
Proof.
  unfold default_report. repeat (apply Forall_app; split);
    try apply printed_to_stdout.
  repeat constructor.
Qed.

(** The two ways the dispatch can go on a store that is not empty: the
    "not found" exit, with nothing but the message written; or output of
    the action only, ended by a normal return or by an InvalidArgument out
    of [inspect_profile]. *)
Lemma dispatch_cases (profiles : gmap string Document) (args : Args) :
  size profiles <> 0%nat ->
  (exists subject,
      dispatch K profiles args = ([not_found subject], inl (SystemExit 1)))
  \/ (Forall (fun e => to_stdout e = true) (written (dispatch K profiles args))
      /\ (outcome (dispatch K profiles args) = inr tt
          \/ exists msg, outcome (dispatch K profiles args)
                         = inl (Uncaught (InvalidArgument msg)))).
Proof.
  intros Hsize. unfold dispatch.
  destruct (list_subjects args).
  { right. rewrite run_list_eq. split; [apply printed_to_stdout|now left]. }
  destruct (truthy (inspect args)) as [subject|].
  { destruct (not_None (profiles !! subject)) as [profile|] eqn:Hprofile.
    - right. rewrite (run_inspect_present K profiles args subject profile Hprofile).
      rewrite written_after, outcome_after.
      destruct (Extract.inspect_profile K profile (depth args)) as [lines|e] eqn:Hcall.
      + split; [|now left]. apply Forall_app. split; [apply printed_to_stdout|].
        cbn [written fst]. apply Forall_fmap, Forall_true. reflexivity.
      + split; [|right].
        * apply Forall_app. split; [apply printed_to_stdout|constructor].
        * apply inspect_profile_raises in Hcall as [_ [msg ->]]. eauto.
    - left. exists subject. now apply run_inspect_absent. }
  destruct (truthy (paths args)) as [subject|].
  { destruct (not_None (profiles !! subject)) as [profile|] eqn:Hprofile.
    - right. destruct (run_paths_present profiles subject profile Hprofile)
        as (available & _ & ->).
      split; [apply paths_report_to_stdout|now left].
    - left. exists subject. now apply run_paths_absent. }
  right. destruct (summary args).
  - rewrite run_summary_eq. split; [|now left].
    apply Forall_app. split; [apply printed_to_stdout|repeat constructor].
  - destruct (list_subjects_first profiles Hsize) as (first & Hfirst & _).
    rewrite (run_default_eq profiles args first Hfirst).
    split; [apply default_report_to_stdout|now left].
Qed.

(** X3: [--quiet] changes nothing but the loader's messages: the run
    without [--quiet] is the loader's messages followed by the run with
    [--quiet], which contains no loader message, and both end the same
    way. *)
Theorem quiet_only_silences_loader (fs : Loader.FileSystem) (args : Args) :
  let loud := main K fs (with_quiet false args) in
  let silent := main K fs (with_quiet true args) in
  loud = after (load_messages fs (with_quiet false args)) silent /\
  outcome loud = outcome silent /\
  Forall (fun e => is_load_message e = false) (written silent).
Proof.
  cbv zeta.
  assert (Hstore : forall q, loaded_store fs (with_quiet q args)
                             = store_of fs (directory args)).
  { intros q. now rewrite loaded_store_of. }
  assert (Hsilent : load_messages fs (with_quiet true args) = []).
  { now apply load_messages_quiet. }
  destruct (decide (size (store_of fs (directory args)) = 0%nat)) as [Hzero|Hsome].
  - rewrite !main_no_profiles by (now rewrite Hstore).
    unfold no_profiles_run. rewrite Hsilent.
    split; [reflexivity|]. split; [reflexivity|]. repeat constructor.
  - rewrite !main_dispatch by (now rewrite Hstore).
    rewrite Hsilent, !Hstore, after_nil.
    change (dispatch K (store_of fs (directory args)) (with_quiet false args))
      with (dispatch K (store_of fs (directory args)) (with_quiet true args)).
    split; [reflexivity|]. split; [reflexivity|].
    destruct (dispatch_cases (store_of fs (directory args))
                (with_quiet true args) Hsome) as [[subject ->]|[Hout _]].
    + repeat constructor.
    + eapply Forall_impl; [exact Hout|]. now intros [].
Qed.



End MainFacts.


Section Branches.
Import Cli.
Context (K : Extract.Constants).

Lemma load_messages_not_stderr (fs : Loader.FileSystem) (args : Args) :
  Forall (fun e => is_stderr e = false) (load_messages fs args).
Proof. unfold load_messages. apply Forall_fmap, Forall_true. reflexivity. Qed.

Lemma to_stdout_not_stderr (es : list event) :
  Forall (fun e => to_stdout e = true) es ->
  Forall (fun e => is_stderr e = false) es.
Proof. intros Hout. eapply Forall_impl; [exact Hout|]. now intros []. Qed.

(** X6: with [--list], whatever the other flags, an invocation that loaded
    a profile prints a header with the number of profiles and then one
    line per subject of the store, in sorted order and without
    duplicates, and returns. *)
Theorem list_prints_every_subject (fs : Loader.FileSystem) (args : Args) :
  list_subjects args = true ->
  size (loaded_store fs args) <> 0%nat ->
  let store := loaded_store fs args in
  exists subjects,
    main K fs args
    = (load_messages fs args
       ++ printed (list_header (length subjects)
                   :: ((fun s => "  " +:+ s) <$> subjects)),
       inr tt) /\
    length subjects = size store /\
    (forall s, s ∈ subjects <-> is_Some (store !! s)) /\
    StronglySorted str_le subjects /\
    NoDup subjects.
Proof.
  intros Hlist Hsome. cbv zeta.
  exists (Loader.list_subjects (loaded_store fs args)).
  split; [|split; [apply list_subjects_length|split; [|split]]].
  - rewrite (main_dispatch K fs args Hsome). unfold dispatch.
    now rewrite Hlist, run_list_eq.
  - intros s. rewrite list_subjects_elem_of. apply elem_of_dom.
  - apply list_subjects_sorted.
  - apply list_subjects_NoDup.
Qed.

(** X7: when [--summary] is the selected action, an invocation that loaded
    a profile prints the summary header and one table, whose rows are one
    per subject of the store in listing order, and returns. *)
Theorem summary_prints_one_table (fs : Loader.FileSystem) (args : Args) :
  winner (supplied args) = Some FSummary ->
  size (loaded_store fs args) <> 0%nat ->
  let store := loaded_store fs args in
  exists rows,
    main K fs args
    = (load_messages fs args
       ++ printed [nl +:+ "Data availability summary:"] ++ [Table rows],
       inr tt) /\
    Extract.row_subject <$> rows = Loader.list_subjects store /\
    length rows = size store.
Proof.
  intros Hwinner Hsome. cbv zeta.
  exists (Extract.summarize_profiles K (loaded_store fs args)).
  split; [|split].
  - rewrite (main_dispatch K fs args Hsome),
      (dispatch_winner K _ args FSummary Hwinner).
    reflexivity.
  - apply summarize_profiles_subjects.
  - rewrite <- list_subjects_length, <- (summarize_profiles_subjects K).
    now rewrite length_fmap.
Qed.

Lemma main_inspect_present (fs : Loader.FileSystem) (args : Args)
    (subject : string) (profile : Document) :
  list_subjects args = false ->
  truthy (inspect args) = Some subject ->
  loaded_store fs args !! subject = Some profile ->
  profile <> Leaf JNull ->
  main K fs args
  = after (load_messages fs args ++ printed [inspect_header subject])
          (match Extract.inspect_profile K profile (depth args) with
           | Ok lines => (OutlineLine <$> lines, inr tt)
           | Raise e => ([], inl (Uncaught e))
           end).
Proof.
  intros Hlist Hinspect Hpresent Hnot_null.
  rewrite (main_dispatch K fs args (lookup_Some_size _ _ _ Hpresent)).
  unfold dispatch. rewrite Hlist, Hinspect.
  rewrite (run_inspect_present K _ args subject profile
             (not_None_present _ _ _ Hpresent Hnot_null)).
  now rewrite after_after.
Qed.

(** X8: when [--inspect] is the selected action and names a subject of the
    store whose Document is not null, [main] first prints the header.
    With [--depth] at least 0 the outline to that depth follows and the
    run returns.  A negative [--depth] is not checked by [main]: it is
    passed on, and the run is cut short by the InvalidArgument of
    [inspect_profile] after the header has been printed. *)
Theorem inspect_present_subject (fs : Loader.FileSystem) (args : Args)
    (subject : string) (profile : Document) :
  list_subjects args = false ->
  truthy (inspect args) = Some subject ->
  loaded_store fs args !! subject = Some profile ->
  profile <> Leaf JNull ->
  (0 <= depth args ->
   main K fs args
   = (load_messages fs args ++ printed [inspect_header subject]
      ++ (OutlineLine <$> Extract.outline K (depth args) 0 profile),
      inr tt)) /\
  (depth args < 0 ->
   exists msg,
     main K fs args
     = (load_messages fs args ++ printed [inspect_header subject],
        inl (Uncaught (InvalidArgument msg)))).
Proof.
  intros Hlist Hinspect Hpresent Hnot_null.
  rewrite (main_inspect_present fs args subject profile Hlist Hinspect
             Hpresent Hnot_null).
  unfold Extract.inspect_profile, after.
  destruct (Z.ltb_spec (depth args) 0) as [Hneg|Hpos]; cbn [fst snd].
  - split; [lia|]. intros _. eexists. now rewrite app_nil_r.
  - split; [|lia]. intros _. now rewrite <- app_assoc.
Qed.

End Branches.

Section Overview.
Import Cli.
Context (K : Extract.Constants).

Lemma str_le_refl (s : string) : str_le s s.
Proof.
  unfold str_le, String.leb.
  induction s as [|a s IH]; [reflexivity|].
  simpl. now rewrite ascii_compare_refl.
Qed.

(** The first item of the listing is the least subject of the store. *)
Lemma list_subjects_least (store : gmap string Document) (first : string) :
  Loader.list_subjects store !! 0%nat = Some first ->
  forall s, is_Some (store !! s) -> str_le first s.
Proof.
  intros Hfirst s Hs.
  apply elem_of_dom, list_subjects_elem_of in Hs.
  pose proof (list_subjects_sorted store) as Hsorted.
  destruct (Loader.list_subjects store) as [|x rest]; [discriminate|].
  injection Hfirst as ->.
  apply elem_of_cons in Hs as [->|Hs]; [apply str_le_refl|].
  apply StronglySorted_inv in Hsorted as [_ Hall].
  now apply (proj1 (Forall_forall _ _) Hall).
Qed.

(** X10: when [--paths] is the selected action and names a subject of the
    store whose Document is not null, the paths reported are those of the
    nodes of the profile with at most 6 segments, in traversal order; each
    has at least one segment. *)
Theorem paths_reports_bounded_nodes (fs : Loader.FileSystem) (args : Args)
    (subject : string) (profile : Document) :
  winner (supplied args) = Some FPaths ->
  truthy (paths args) = Some subject ->
  loaded_store fs args !! subject = Some profile ->
  profile <> Leaf JNull ->
  let nodes := filter (within 6) (preorder [] profile) in
  main K fs args
  = (load_messages fs args ++ paths_report subject (map render_path nodes),
     inr tt) /\
  Forall (fun p => (1 <= length p <= 6)%nat) nodes.
Proof.
  intros Hwinner Hpaths Hpresent Hnot_null. cbv zeta. split.
  - rewrite (main_dispatch K fs args (lookup_Some_size _ _ _ Hpresent)).
    rewrite (dispatch_winner K _ args FPaths Hwinner). unfold action.
    rewrite Hpaths.
    destruct (run_paths_present (loaded_store fs args) subject profile
                (not_None_present _ _ _ Hpresent Hnot_null))
      as (available & Havailable & ->).
    change (Extract.get_available_paths profile 6)
      with (Ok (map render_path (Extract.walk 6 0 [] profile))) in Havailable.
    injection Havailable as <-. now rewrite walk_root.
  - apply Forall_forall. intros p [Hwithin Hp]%list_elem_of_filter.
    apply preorder_longer in Hp. unfold within, max_segments in Hwithin.
    simpl in *. lia.
Qed.

End Overview.

Section ScriptFacts.
Import Cli Testing.
Context (K : Extract.Constants) (VERBOSE_DEFAULT : bool).

Lemma script_eq (fs : Loader.FileSystem) :
  script K VERBOSE_DEFAULT fs
  = let store := store_of fs DEFAULT_OH_DIRECTORY in
    let subjects := Loader.list_subjects store in
    let out := script_messages VERBOSE_DEFAULT fs
               ++ [loaded_line (length subjects)] in
    match subjects !! 0%nat with
    | None => (out, Raised (Library (IndexError "list index out of range")))
    | Some first =>
        match not_None (store !! first) with
        | Some profile =>
            match Extract.inspect_profile K profile 3 with
            | Ok lines => (out ++ (OutlineLine <$> lines), Finished)
            | Raise e => (out, Raised (Library e))
            end
        | None =>
            (out, Raised (ValueError
                            ("No profile found for subject: " +:+ first)))
        end
    end.
Proof.
  unfold script, script_messages, store_of, Loader.load_profiles,
    Loader.get_profile.
  destruct (fs !! DEFAULT_OH_DIRECTORY) as [entries|]; [|reflexivity].
  now destruct (Loader.scan entries).
Qed.

(** X11: the script has no guard for an empty store: when the default
    directory does not exist or gives no profile, it prints
    "Loaded 0 subjects" and ends in the IndexError of [subjects[0]]. *)
Theorem script_needs_a_profile (fs : Loader.FileSystem) :
  size (store_of fs DEFAULT_OH_DIRECTORY) = 0%nat ->
  script K VERBOSE_DEFAULT fs
  = (script_messages VERBOSE_DEFAULT fs ++ [loaded_line 0],
     Raised (Library (IndexError "list index out of range"))).
Proof.
  intros Hzero. rewrite script_eq. cbv zeta.
  pose proof (list_subjects_length (store_of fs DEFAULT_OH_DIRECTORY)) as Hlen.
  rewrite Hzero in Hlen.
  destruct (Loader.list_subjects (store_of fs DEFAULT_OH_DIRECTORY));
    [reflexivity|discriminate].
Qed.

(** X12: when the default directory gives at least one profile, the script
    prints the number of profiles and inspects the least subject of the
    store to depth 3, then ends normally; it raises its ValueError exactly
    when the Document of that subject is the JSON null. *)
Theorem script_inspects_first_subject (fs : Loader.FileSystem) :
  let store := store_of fs DEFAULT_OH_DIRECTORY in
  size store <> 0%nat ->
  exists first,
    is_Some (store !! first) /\
    (forall s, is_Some (store !! s) -> str_le first s) /\
    (forall profile,
        store !! first = Some profile ->
        profile <> Leaf JNull ->
        script K VERBOSE_DEFAULT fs
        = (script_messages VERBOSE_DEFAULT fs ++ [loaded_line (size store)]
           ++ (OutlineLine <$> Extract.outline K 3 0 profile),
           Finished)) /\
    (store !! first = Some (Leaf JNull) ->
     script K VERBOSE_DEFAULT fs
     = (script_messages VERBOSE_DEFAULT fs ++ [loaded_line (size store)],
        Raised (ValueError ("No profile found for subject: " +:+ first)))).
Proof.
  cbv zeta. intros Hsome.
  destruct (list_subjects_first _ Hsome) as (first & Hfirst & Hdom).
  exists first. split; [now apply elem_of_dom|].
  split; [now apply list_subjects_least|].
  rewrite script_eq. cbv zeta. rewrite Hfirst, list_subjects_length. split.
  - intros profile Hpresent Hnot_null.
    rewrite (not_None_present _ _ _ Hpresent Hnot_null).
    change (Extract.inspect_profile K profile 3)
      with (Ok (A := list Extract.outline_item) (Extract.outline K 3 0 profile)).
    cbv iota. now rewrite <- app_assoc.
  - intros Hnull. now rewrite Hnull.
Qed.

End ScriptFacts.

(** ** The added properties on sample invocations *)

Lemma list_prints_every_subject_witness :
  let store := loaded_store sample_fs args_list in
  exists subjects,
    Cli.main sample_constants sample_fs args_list
    = (load_messages sample_fs args_list
       ++ printed (list_header (length subjects)
                   :: ((fun s => "  " +:+ s) <$> subjects)),
       inr tt) /\
    length subjects = size store /\
    (forall s, s ∈ subjects <-> is_Some (store !! s)) /\
    StronglySorted str_le subjects /\
    NoDup subjects.
Proof.
  apply (list_prints_every_subject sample_constants sample_fs args_list).
  - reflexivity.
  - vm_compute. discriminate.
Defined.

Lemma summary_prints_one_table_witness :
  let store := loaded_store sample_fs args_summary in
  exists rows,
    Cli.main sample_constants sample_fs args_summary
    = (load_messages sample_fs args_summary
       ++ printed [nl +:+ "Data availability summary:"] ++ [Cli.Table rows],
       inr tt) /\
    Extract.row_subject <$> rows = Loader.list_subjects store /\
    length rows = size store.
Proof.
  apply (summary_prints_one_table sample_constants sample_fs args_summary).
  - vm_compute. reflexivity.
  - vm_compute. discriminate.
Defined.

Lemma inspect_present_subject_witness :
  exists msg,
    Cli.main sample_constants sample_fs args_inspect_A_negative
    = (load_messages sample_fs args_inspect_A_negative
       ++ printed [inspect_header "A"],
       inl (Cli.Uncaught (InvalidArgument msg))).
Proof.
  apply (proj2 (inspect_present_subject sample_constants sample_fs
                  args_inspect_A_negative "A" doc_A
                  ltac:(reflexivity) ltac:(reflexivity)
                  ltac:(vm_compute; reflexivity) ltac:(discriminate))).
  vm_compute. reflexivity.
Defined.

Lemma paths_reports_bounded_nodes_witness :
  let nodes := filter (within 6) (preorder [] doc_A) in
  Cli.main sample_constants sample_fs args_paths_A
  = (load_messages sample_fs args_paths_A
     ++ paths_report "A" (map render_path nodes),
     inr tt) /\
  Forall (fun p => (1 <= length p <= 6)%nat) nodes.
Proof.
  apply (paths_reports_bounded_nodes sample_constants sample_fs args_paths_A
           "A" doc_A).
  - vm_compute. reflexivity.
  - reflexivity.
  - vm_compute. reflexivity.
  - discriminate.
Defined.

Lemma script_needs_a_profile_witness :
  Testing.script sample_constants true sample_fs
  = (script_messages true sample_fs ++ [loaded_line 0],
     Testing.Raised (Testing.Library (IndexError "list index out of range"))).
Proof.
  apply (script_needs_a_profile sample_constants true sample_fs).
  vm_compute. reflexivity.
Defined.

Lemma script_inspects_first_subject_witness :
  let store := store_of default_dir_fs Cli.DEFAULT_OH_DIRECTORY in
  exists first,
    is_Some (store !! first) /\
    (forall s, is_Some (store !! s) -> str_le first s) /\
    (forall profile,
        store !! first = Some profile ->
        profile <> Leaf JNull ->
        Testing.script sample_constants true default_dir_fs
        = (script_messages true default_dir_fs ++ [loaded_line (size store)]
           ++ (Cli.OutlineLine <$> Extract.outline sample_constants 3 0 profile),
           Testing.Finished)) /\
    (store !! first = Some (Leaf JNull) ->
     Testing.script sample_constants true default_dir_fs
     = (script_messages true default_dir_fs ++ [loaded_line (size store)],
        Testing.Raised
          (Testing.ValueError ("No profile found for subject: " +:+ first)))).
Proof.
  apply (script_inspects_first_subject sample_constants true default_dir_fs).
  vm_compute. discriminate.
Defined.

(** ** The exit status of the process *)

Section ExitStatus.
Import Cli.
Context (K : Extract.Constants).

Lemma exit_status_after (es : list event) (m : prog unit) :
  exit_status (after es m) = exit_status m.
Proof. reflexivity. Qed.

(** The exit status of the dispatch on a store that is not empty, when the
    subject looked up does not have the null Document and no negative depth
    reaches [inspect_profile]. *)
Lemma dispatch_exit_status (profiles : gmap string Document) (args : Args) :
  size profiles <> 0%nat ->
  (forall subject, selected_subject args = Some subject ->
                   profiles !! subject <> Some (Leaf JNull)) ->
  ~ negative_depth_inspect profiles args ->
  (exit_status (dispatch K profiles args) = 1
   <-> exists subject, selected_subject args = Some subject
                       /\ profiles !! subject = None) /\
  (exit_status (dispatch K profiles args) <> 1 ->
   exit_status (dispatch K profiles args) = 0).
Proof.
  intros Hsize Hnull Hdepth.
  assert (Hzero : forall m : prog unit,
             ~ (exists subject, selected_subject args = Some subject
                                /\ profiles !! subject = None) ->
             exit_status m = 0 ->
             (exit_status m = 1
              <-> exists subject, selected_subject args = Some subject
                                  /\ profiles !! subject = None) /\
             (exit_status m <> 1 -> exit_status m = 0)).
  { intros m Hnot Hm. rewrite Hm. split; [split; [discriminate|tauto]|reflexivity]. }
  assert (Hone : forall m : prog unit,
             (exists subject, selected_subject args = Some subject
                              /\ profiles !! subject = None) ->
             exit_status m = 1 ->
             (exit_status m = 1
              <-> exists subject, selected_subject args = Some subject
                                  /\ profiles !! subject = None) /\
             (exit_status m <> 1 -> exit_status m = 0)).
  { intros m Habsent Hm. split; [tauto|congruence]. }
  unfold dispatch. unfold selected_subject in *.
  destruct (list_subjects args) eqn:Hlist.
  { apply Hzero; [|now rewrite run_list_eq]. intros (s & [=] & _). }
  destruct (truthy (inspect args)) as [subject|] eqn:Hinspect.
  { destruct (profiles !! subject) as [profile|] eqn:Hprofile.
    - assert (Hnot_null : profile <> Leaf JNull).
      { intros ->. now apply (Hnull subject). }
      rewrite (run_inspect_present K profiles args subject profile
                 (not_None_present _ _ _ Hprofile Hnot_null)).
      rewrite exit_status_after. unfold Extract.inspect_profile.
      destruct (Z.ltb_spec (depth args) 0) as [Hneg|Hpos].
      + destruct Hdepth. split; [exact Hlist|]. split; [exact Hneg|].
        exists subject. rewrite Hprofile. eauto.
      + apply Hzero; [|reflexivity]. intros (s & [= <-] & Hs). congruence.
    - apply Hone; [eauto|].
      now rewrite (run_inspect_absent K profiles args subject
                     (not_None_absent _ _ Hprofile)). }
  destruct (truthy (paths args)) as [subject|] eqn:Hpaths.
  { destruct (profiles !! subject) as [profile|] eqn:Hprofile.
    - assert (Hnot_null : profile <> Leaf JNull).
      { intros ->. now apply (Hnull subject). }
      destruct (run_paths_present profiles subject profile
                  (not_None_present _ _ _ Hprofile Hnot_null))
        as (available & _ & ->).
      apply Hzero; [|reflexivity]. intros (s & [= <-] & Hs). congruence.
    - apply Hone; [eauto|].
      now rewrite (run_paths_absent profiles subject
                     (not_None_absent _ _ Hprofile)). }
  assert (Hnot : ~ (exists subject, @None string = Some subject
                                    /\ profiles !! subject = None)).
  { intros (s & [=] & _). }
  destruct (summary args).
  - apply Hzero; [exact Hnot|now rewrite run_summary_eq].
  - destruct (list_subjects_first profiles Hsize) as (first & Hfirst & _).
    apply Hzero; [exact Hnot|now rewrite (run_default_eq profiles args first Hfirst)].
Qed.

(** C1 (amended): for a command line that argparse accepts, when the
    subject that the selected action looks up does not have the JSON null
    as its Document and no negative [--depth] reaches [inspect_profile],
    the process exits with status 1 exactly when no profile was loaded
    (and then "No profiles loaded." is on stderr) or when the selected
    action, [--inspect] or else [--paths] in the absence of [--list] and
    with a non-empty value, names a subject that is not in the store; it
    exits with status 0 otherwise.  A command line that argparse rejects
    ends with status 2, and [--help] with status 0. *)
Theorem exit_status_one_iff (fs : Loader.FileSystem) :
  (forall args,
      let store := loaded_store fs args in
      let run := main_from K fs (Parsed args) in
      (forall subject, selected_subject args = Some subject ->
                       store !! subject <> Some (Leaf JNull)) ->
      ~ negative_depth_inspect store args ->
      (exit_status run = 1
       <-> size store = 0%nat
           \/ exists subject, selected_subject args = Some subject
                              /\ store !! subject = None) /\
      (size store = 0%nat -> Stderr ("No profiles loaded." +:+ nl) ∈ written run) /\
      (exit_status run <> 1 -> exit_status run = 0)) /\
  (forall usage, exit_status (main_from K fs (Rejected usage)) = 2) /\
  (forall text, exit_status (main_from K fs (Help text)) = 0).
Proof.
  split; [|split; reflexivity].
  intros args. cbv zeta. cbn [main_from]. intros Hnull Hdepth.
  destruct (decide (size (loaded_store fs args) = 0%nat)) as [Hzero|Hsome].
  - rewrite (main_no_profiles K fs args Hzero). unfold no_profiles_run.
    split; [split; [auto|reflexivity]|]. split.
    + intros _. apply elem_of_app. right. left.
    + intros Hne. now destruct Hne.
  - rewrite (main_dispatch K fs args Hsome), exit_status_after.
    destruct (dispatch_exit_status (loaded_store fs args) args Hsome Hnull Hdepth)
      as [Hone Hother].
    split; [rewrite Hone; tauto|]. split; [contradiction|exact Hother].
Qed.

(** X5: [main] ends a run by [sys.exit] only with code 1, and in such a run
    all it has written after the loader's messages is one line on stderr:
    no action has printed anything.  In a run that [main] does not end by
    [sys.exit], none of the lines that [main] prints goes to stderr. *)
Theorem stderr_only_before_sys_exit (fs : Loader.FileSystem) (args : Args) :
  let run := main K fs args in
  (forall code,
      outcome run = inl (SystemExit code) ->
      code = 1 /\
      exists text, written run = load_messages fs args ++ [Stderr text]) /\
  ((forall code, outcome run <> inl (SystemExit code)) ->
   Forall (fun e => is_stderr e = false) (written run)).
Proof.
  cbv zeta.
  destruct (decide (size (loaded_store fs args) = 0%nat)) as [Hzero|Hsome].
  - rewrite (main_no_profiles K fs args Hzero). unfold no_profiles_run. split.
    + intros code [= <-]. cbn [written fst]. eauto.
    + intros Hnever. now destruct (Hnever 1).
  - rewrite (main_dispatch K fs args Hsome), outcome_after, written_after.
    destruct (dispatch_cases K (loaded_store fs args) args Hsome)
      as [[subject ->]|[Hout Hend]]; split.
    + intros code [= <-]. cbn [written fst]. eauto.
    + intros Hnever. now destruct (Hnever 1).
    + intros code Hcode. destruct Hend as [Hend|[msg Hend]]; congruence.
    + intros _. apply Forall_app.
      split; [apply load_messages_not_stderr|now apply to_stdout_not_stderr].
Qed.

(** X9: on the no-flag default branch the subject that the usage example
    [--inspect <first>] names is a subject of the store, the least one in
    the order of the listing. *)
Theorem overview_names_least_subject (fs : Loader.FileSystem) (args : Args) :
  winner (supplied args) = None ->
  size (loaded_store fs args) <> 0%nat ->
  let store := loaded_store fs args in
  exists first,
    main K fs args
    = (load_messages fs args
       ++ default_report (directory args) (Loader.list_subjects store) first,
       inr tt) /\
    is_Some (store !! first) /\
    (forall s, is_Some (store !! s) -> str_le first s).
Proof.
  intros Hnone Hsome. cbv zeta.
  destruct (list_subjects_first _ Hsome) as (first & Hfirst & Hdom).
  exists first. split; [|split].
  - rewrite (main_dispatch K fs args Hsome), (dispatch_default K _ args Hnone).
    now rewrite (run_default_eq _ args first Hfirst).
  - now apply elem_of_dom.
  - now apply list_subjects_least.
Qed.

End ExitStatus.

(** C1 as first stated fails.  With [--list --inspect ghost] the subject
    asked for is not in the store, and with [--inspect ''] neither is the
    empty identifier, yet both runs exit with status 0.  [--inspect N]
    exits with status 1 for a subject that is in the store, when its
    Document is the JSON null; so does [--inspect A --depth -1], through
    the exception that escapes.  And a command line that argparse rejects
    exits with status 2, neither 1 nor 0. *)
Lemma exit_status_one_iff_counterexample :
  (Cli.inspect args_list_inspect_ghost = Some "ghost" /\
   loaded_store sample_fs args_list_inspect_ghost !! "ghost" = None /\
   size (loaded_store sample_fs args_list_inspect_ghost) = 2%nat /\
   exit_status (main_from sample_constants sample_fs
                  (Parsed args_list_inspect_ghost)) = 0) /\
  (Cli.inspect args_inspect_empty = Some EmptyString /\
   loaded_store sample_fs args_inspect_empty !! EmptyString = None /\
   exit_status (main_from sample_constants sample_fs
                  (Parsed args_inspect_empty)) = 0) /\
  (Cli.inspect args_inspect_N = Some "N" /\
   loaded_store null_fs args_inspect_N !! "N" = Some (Leaf JNull) /\
   exit_status (main_from sample_constants null_fs (Parsed args_inspect_N)) = 1) /\
  (Cli.inspect args_inspect_A_negative = Some "A" /\
   loaded_store sample_fs args_inspect_A_negative !! "A" = Some doc_A /\
   Cli.depth args_inspect_A_negative = -1 /\
   exit_status (main_from sample_constants sample_fs
                  (Parsed args_inspect_A_negative)) = 1) /\
  exit_status (main_from sample_constants sample_fs
                 (Rejected "error: unrecognized arguments")) = 2.
Proof. vm_compute. repeat split; reflexivity. Qed.

Lemma exit_status_one_iff_witness :
  exit_status (main_from sample_constants sample_fs (Parsed args_inspect_ghost)) = 1
  /\ exit_status (main_from sample_constants sample_fs (Parsed args_no_flag)) = 0.
Proof.
  destruct (exit_status_one_iff sample_constants sample_fs) as [Hparsed _].
  split.
  - apply (Hparsed args_inspect_ghost).
    + intros subject [= <-]. vm_compute. discriminate.
    + intros (_ & Hneg & _). vm_compute in Hneg. discriminate.
    + right. exists "ghost". split; vm_compute; reflexivity.
  - apply (Hparsed args_no_flag).
    + intros subject Hsel. vm_compute in Hsel. discriminate.
    + intros (_ & Hneg & _). vm_compute in Hneg. discriminate.
    + vm_compute. discriminate.
Defined.

Lemma stderr_only_before_sys_exit_witness :
  exists text,
    Cli.written (Cli.main sample_constants broken_fs args_list)
    = load_messages broken_fs args_list ++ [Cli.Stderr text].
Proof.
  exact (proj2 (proj1 (stderr_only_before_sys_exit sample_constants broken_fs
                         args_list) 1 ltac:(vm_compute; reflexivity))).
Defined.

Lemma overview_names_least_subject_witness :
  let store := loaded_store sample_fs args_no_flag in
  exists first,
    Cli.main sample_constants sample_fs args_no_flag
    = (load_messages sample_fs args_no_flag
       ++ default_report (Cli.directory args_no_flag)
            (Loader.list_subjects store) first,
       inr tt) /\
    is_Some (store !! first) /\
    (forall s, is_Some (store !! s) -> str_le first s).
Proof.
  apply (overview_names_least_subject sample_constants sample_fs args_no_flag).
  - vm_compute. reflexivity.
  - vm_compute. discriminate.
Defined.
